(** * Search-criteria encoding and the paginated fetch engine

    A shallow embedding of the query-string builders and of
    [fetchAllPages] of the Magento 2 MCP server, with the properties its
    specification states about them.

    Strings are byte strings holding the UTF-8 form of the JavaScript
    strings; JSON numbers are taken in their integer fragment ([Z]).
    The HTTP call is a function of the URL and of the state of the
    world, returning the response or the error together with the new
    world. The [do ... while (true)] loop of [fetchAllPages] has no
    bound of its own, so it is run for a given number of turns
    ([fuel]); a run that is cut while the loop is going ends in
    [OutOfFuel], and a result is stated for every number of turns from
    the one that suffices. *)

From Stdlib Require Import ZArith List String Ascii Bool Lia Arith.
From Stdlib Require Import Numbers.DecimalString Numbers.DecimalPos Numbers.DecimalZ.
Import ListNotations.

Set Warnings "-register-all".

Local Open Scope string_scope.
Local Open Scope Z_scope.

(* ===================================================================== *)
(** ** String primitives of the host language *)
(* ===================================================================== *)

Module Str.

(** [`${n}`] for an integer-valued number below 10^21 in magnitude:
    the digits, after a minus sign when negative. From 10^21 on the
    template literal writes the number with an exponent ([1e+21]),
    which [dec] does not; the numbers written here (page numbers, page
    sizes, calendar fields) are far below. *)
Definition dec (n : Z) : string := NilZero.string_of_int (Z.to_int n).

(** The rest of [s] once the literal [p] has been read off its front. *)
Fixpoint strip_prefix (p s : string) : option string :=
  match p with
  | EmptyString => Some s
  | String a p' =>
      match s with
      | EmptyString => None
      | String b s' => if Ascii.eqb a b then strip_prefix p' s' else None
      end
  end.

Definition starts_with (p s : string) : bool :=
  match strip_prefix p s with Some _ => true | None => false end.

(** [s.includes(sub)] *)
Fixpoint includes (s sub : string) : bool :=
  if starts_with sub s then true
  else match s with
       | EmptyString => false
       | String _ s' => includes s' sub
       end.

(** The class [\d] of the regular expressions. *)
Definition is_digit (c : ascii) : bool :=
  let n := nat_of_ascii c in (Nat.leb 48 n && Nat.leb n 57)%bool.

(** What is left after a greedy [\d*]. *)
Fixpoint skip_digits (s : string) : string :=
  match s with
  | EmptyString => EmptyString
  | String c s' => if is_digit c then skip_digits s' else s
  end.

(** The digits a greedy [\d*] reads. *)
Fixpoint take_digits (s : string) : string :=
  match s with
  | EmptyString => EmptyString
  | String c s' => if is_digit c then String c (take_digits s') else EmptyString
  end.

Fixpoint all_digits (s : string) : bool :=
  match s with
  | EmptyString => true
  | String c s' => (is_digit c && all_digits s')%bool
  end.

Definition head_is_digit (s : string) : bool :=
  match s with
  | EmptyString => false
  | String c _ => is_digit c
  end.

(** [s.replace(/<lit>\d+/, repl)] for a literal [lit] and a replacement
    text without [$]: the leftmost place where [lit] is followed by at
    least one digit is rewritten, the digits being read greedily; a
    string with no such place is returned as it is. *)
Fixpoint replace_lit_digits (lit repl s : string) : string :=
  let here :=
    match strip_prefix lit s with
    | Some rest => if head_is_digit rest then Some (repl ++ skip_digits rest) else None
    | None => None
    end in
  match here with
  | Some r => r
  | None =>
      match s with
      | EmptyString => EmptyString
      | String c s' => String c (replace_lit_digits lit repl s')
      end
  end.

(** [parts.join(sep)] *)
Fixpoint join (sep : string) (parts : list string) : string :=
  match parts with
  | [] => EmptyString
  | [p] => p
  | p :: rest => p ++ sep ++ join sep rest
  end.

(** Number of UTF-16 code units of the string whose UTF-8 form is [s]
    (the [length] property of a string). *)
Fixpoint utf16_length (s : string) : Z :=
  match s with
  | EmptyString => 0
  | String c s' =>
      let b := nat_of_ascii c in
      (if Nat.ltb b 128 then 1
       else if Nat.ltb b 192 then 0
       else if Nat.ltb b 240 then 1
       else 2) + utf16_length s'
  end.

End Str.

(* ===================================================================== *)
(** ** Values of the host language, as far as the engine inspects them *)
(* ===================================================================== *)

Module Js.

Inductive jsval : Type :=
| JUndefined
| JNull
| JBool (b : bool)
| JNum (n : Z)
| JStr (s : string)
| JArr (elems : list jsval)
| JObj (fields : list (string * jsval)).

(** ToBoolean *)
Definition truthy (v : jsval) : bool :=
  match v with
  | JUndefined | JNull => false
  | JBool b => b
  | JNum n => negb (n =? 0)
  | JStr s => negb (String.eqb s "")
  | JArr _ | JObj _ => true
  end.

(** [Array.isArray(v)] *)
Definition isArray (v : jsval) : bool :=
  match v with JArr _ => true | _ => false end.

(** An own property of a parsed JSON object; of two equal keys the later
    one is the one that was kept. *)
Fixpoint own_prop (fields : list (string * jsval)) (k : string) : jsval :=
  match fields with
  | [] => JUndefined
  | (k', v) :: rest =>
      match own_prop rest k with
      | JUndefined => if String.eqb k' k then v else JUndefined
      | later => later
      end
  end.

Inductive exn : Type :=
| ApiError (message : string)   (* what the HTTP call threw *)
| TypeError.                    (* property read on undefined or null *)

(** [v.k] for the three names the engine reads ([items], [total_count],
    [length]); [None] is the TypeError of a read on [undefined] or
    [null]. *)
Definition get_prop (v : jsval) (k : string) : option jsval :=
  match v with
  | JUndefined | JNull => None
  | JBool _ | JNum _ => Some JUndefined
  | JStr s => Some (if String.eqb k "length" then JNum (Str.utf16_length s) else JUndefined)
  | JArr l => Some (if String.eqb k "length" then JNum (Z.of_nat (List.length l)) else JUndefined)
  | JObj fields => Some (own_prop fields k)
  end.

Definition is_space (c : ascii) : bool :=
  let n := nat_of_ascii c in
  (Nat.eqb n 32 || (Nat.leb 9 n && Nat.leb n 13))%bool.

Fixpoint trim_left (s : string) : string :=
  match s with
  | EmptyString => EmptyString
  | String c s' => if is_space c then trim_left s' else s
  end.

Fixpoint all_spaces (s : string) : bool :=
  match s with
  | EmptyString => true
  | String c s' => (is_space c && all_spaces s')%bool
  end.

(** Reads [digits] followed by white space only; [acc] is the value of
    the digits read so far and [seen] tells whether there was one. *)
Fixpoint read_digits (s : string) (acc : Z) (seen : bool) : option Z :=
  match s with
  | EmptyString => if seen then Some acc else None
  | String c s' =>
      if Str.is_digit c
      then read_digits s' (10 * acc + Z.of_nat (nat_of_ascii c - 48)) true
      else if (seen && all_spaces s)%bool then Some acc else None
  end.

(** StringToNumber on the integer fragment: ASCII white space around
    an optionally signed run of decimal digits, the empty string being
    0; [None] is NaN. Where it returns a number, that is the number
    JavaScript reads. A text in another notation of numbers (a
    fraction or an exponent as in [100.0] and [1e2], a radix prefix as
    in [0x10], [Infinity]) is read as NaN here although JavaScript
    reads a number: on a response whose [total_count] is such a text
    the loop of the model goes on where the code may stop by the
    count, so a statement that assumes a run still going after some
    turns speaks, on such a response, of a run the code may have ended
    before. *)
Definition string_to_number (s : string) : option Z :=
  match trim_left s with
  | EmptyString => Some 0
  | String c s' =>
      if Ascii.eqb c "-" then option_map Z.opp (read_digits s' 0 false)
      else if Ascii.eqb c "+" then read_digits s' 0 false
      else read_digits (String c s') 0 false
  end.

(** ToString, as ToNumber needs it for arrays. *)
Fixpoint to_string (v : jsval) : string :=
  match v with
  | JUndefined => "undefined"
  | JNull => "null"
  | JBool true => "true"
  | JBool false => "false"
  | JNum n => Str.dec n
  | JStr s => s
  | JArr l =>
      Str.join ","
        (List.map (fun e => match e with
                            | JUndefined | JNull => EmptyString
                            | _ => to_string e
                            end) l)
  | JObj _ => "[object Object]"
  end.

(** ToNumber; [None] is NaN. *)
Definition to_number (v : jsval) : option Z :=
  match v with
  | JUndefined => None
  | JNull => Some 0
  | JBool b => Some (if b then 1 else 0)
  | JNum n => Some n
  | JStr s => string_to_number s
  | JArr _ => string_to_number (to_string v)
  | JObj _ => None
  end.

(** [v <= n] and [v < n] against a number: false as soon as NaN is
    involved. *)
Definition le_num (v : jsval) (n : Z) : bool :=
  match to_number v with Some x => x <=? n | None => false end.

Definition lt_num (v : jsval) (n : Z) : bool :=
  match to_number v with Some x => x <? n | None => false end.

(** [a || b] *)
Definition or_else (a b : jsval) : jsval := if truthy a then a else b.

End Js.

(* ===================================================================== *)
(** ** The HTTP client and the paginated fetch engine (api-client.js) *)
(* ===================================================================== *)

Module ApiClient.
Import Js.

(** How a call of [callMagentoApi] ends: with [response.data], or with
    the error it rethrows. *)
Inductive api_result : Type :=
| Resolved (data : jsval)
| Rejected (e : exn).

Definition pageSize : Z := 100.

(** Lines 107-118: the search criteria sent for page [currentPage]. *)
Definition currentPageSearchCriteria (baseSearchCriteria : string) (currentPage : nat) : string :=
  let c1 :=
    if negb (Str.includes baseSearchCriteria "searchCriteria[pageSize]")
    then baseSearchCriteria ++ "&searchCriteria[pageSize]=" ++ Str.dec pageSize
    else baseSearchCriteria in
  if negb (Str.includes c1 "searchCriteria[currentPage]")
  then c1 ++ "&searchCriteria[currentPage]=" ++ Str.dec (Z.of_nat currentPage)
  else Str.replace_lit_digits "searchCriteria[currentPage]="
         ("searchCriteria[currentPage]=" ++ Str.dec (Z.of_nat currentPage)) c1.

Definition request_url (endpoint baseSearchCriteria : string) (currentPage : nat) : string :=
  endpoint ++ "?" ++ currentPageSearchCriteria baseSearchCriteria currentPage.

(** The variables of the loop. *)
Record loop_state : Type := mkState {
  currentPage : nat;
  allItems : list jsval;
  totalCount : jsval
}.

Definition initial_state : loop_state :=
  {| currentPage := 1; allItems := []; totalCount := JNum 0 |}.

(** How one turn of the [do ... while (true)] ends. *)
Inductive step : Type :=
| Continue (st : loop_state)
| Break (items : list jsval)
| Raise (e : exn).

Definition elems (v : jsval) : list jsval :=
  match v with JArr l => l | _ => [] end.

(** Lines 123-137: the turn of the loop once the response is there. *)
Definition after_response (st : loop_state) (responseData : jsval) : step :=
  match get_prop responseData "items" with
  | None => Raise TypeError
  | Some items =>
      let allItems' :=
        if (truthy items && isArray items)%bool
        then (st.(allItems) ++ elems items)%list
        else st.(allItems) in
      let totalCount' :=
        if Nat.eqb st.(currentPage) 1
        then match get_prop responseData "total_count" with
             | Some tc => or_else tc (JNum 0)
             | None => JNum 0
             end
        else st.(totalCount) in
      if (le_num totalCount' (Z.of_nat (List.length allItems'))
          || negb (truthy items)
          || match get_prop items "length" with
             | Some len => lt_num len pageSize
             | None => false
             end)%bool
      then Break allItems'
      else Continue {| currentPage := S st.(currentPage);
                       allItems := allItems';
                       totalCount := totalCount' |}
  end.

(** How a run of the engine ends; [OutOfFuel] is a run that was cut
    while the loop was still going, with the variables it had. *)
Inductive outcome : Type :=
| Returned (items : list jsval)
| Thrown (e : exn)
| OutOfFuel (st : loop_state).

Section Engine.

(** The world the HTTP calls talk to, and the call itself: the
    endpoint with its query, the world before; the result and the
    world after. *)
Context {World : Type}.
Variable callMagentoApi : string -> World -> api_result * World.

Record run : Type := mkRun {
  result : outcome;
  requests : list string;   (* the URLs requested, in order *)
  world : World
}.

(** The run [r], once [urls] have been requested before it. *)
Definition sent_before (urls : list string) (r : run) : run :=
  {| result := r.(result); requests := (urls ++ r.(requests))%list; world := r.(world) |}.

Definition sent (url : string) (r : run) : run := sent_before [url] r.

(** The loop of lines 105-139, run for at most [fuel] turns. *)
Fixpoint loop (fuel : nat) (endpoint baseSearchCriteria : string)
    (st : loop_state) (w : World) : run :=
  match fuel with
  | O => {| result := OutOfFuel st; requests := []; world := w |}
  | S fuel' =>
      let url := request_url endpoint baseSearchCriteria st.(currentPage) in
      match callMagentoApi url w with
      | (Rejected e, w') => {| result := Thrown e; requests := [url]; world := w' |}
      | (Resolved responseData, w') =>
          match after_response st responseData with
          | Raise e => {| result := Thrown e; requests := [url]; world := w' |}
          | Break items => {| result := Returned items; requests := [url]; world := w' |}
          | Continue st' => sent url (loop fuel' endpoint baseSearchCriteria st' w')
          end
      end
  end.

Definition fetchAllPages (fuel : nat) (endpoint baseSearchCriteria : string) (w : World) : run :=
  loop fuel endpoint baseSearchCriteria initial_state w.

End Engine.

(** Two ends of a call that differ at most in what the responses hold
    besides [items]: the same world after, and either the same failure
    or responses with the same [items]. *)
Definition same_items {World : Type} (a b : api_result * World) : Prop :=
  snd a = snd b /\
  match fst a, fst b with
  | Resolved d1, Resolved d2 => get_prop d1 "items" = get_prop d2 "items"
  | Rejected e1, Rejected e2 => e1 = e2
  | _, _ => False
  end.

Arguments mkRun {World} _ _ _.
Arguments result {World} _.
Arguments requests {World} _.
Arguments world {World} _.

(** *** Servers to run the engine against *)

(** The number that follows the first [key=] of a query. *)
Fixpoint query_number (key url : string) : option Z :=
  match Str.strip_prefix (key ++ "=") url with
  | Some rest => Js.read_digits (Str.take_digits rest) 0 false
  | None =>
      match url with
      | EmptyString => None
      | String _ url' => query_number key url'
      end
  end.

Definition search_result (total : Z) (items : list jsval) : jsval :=
  JObj [("items", JArr items); ("total_count", JNum total)].

(** Page [k] (from 1) of [coll] cut in pages of [p]. *)
Definition page_of (coll : list jsval) (p k : nat) : list jsval :=
  firstn p (skipn ((k - 1) * p) coll).

(** A server that holds the collection [coll] and answers each request
    with the page the query names, of the size the query names, and
    with the size of the whole collection as [total_count]. *)
Definition paged_server (coll : list jsval) (url : string) (w : unit) : api_result * unit :=
  match query_number "searchCriteria[pageSize]" url,
        query_number "searchCriteria[currentPage]" url with
  | Some p, Some k =>
      (Resolved (search_result (Z.of_nat (List.length coll))
                   (page_of coll (Z.to_nat p) (Z.to_nat k))), w)
  | _, _ => (Rejected (ApiError "Bad Request"), w)
  end.

(** A server that fails on the page [bad] and is [paged_server]
    otherwise. *)
Definition failing_server (coll : list jsval) (bad : Z) (url : string) (w : unit)
  : api_result * unit :=
  match query_number "searchCriteria[currentPage]" url with
  | Some k => if k =? bad then (Rejected (ApiError "Internal Server Error"), w)
              else paged_server coll url w
  | None => paged_server coll url w
  end.

(** A server like [paged_server], but that reports the size of the
    collection on the first page only, and 0 on the others. *)
Definition miscounting_server (coll : list jsval) (url : string) (w : unit)
  : api_result * unit :=
  match query_number "searchCriteria[pageSize]" url,
        query_number "searchCriteria[currentPage]" url with
  | Some p, Some k =>
      (Resolved (search_result (if k =? 1 then Z.of_nat (List.length coll) else 0)
                   (page_of coll (Z.to_nat p) (Z.to_nat k))), w)
  | _, _ => (Rejected (ApiError "Bad Request"), w)
  end.

(** A server that serves [coll] in pages of [p], one page after the
    other; its world is the number of pages served so far. *)
Definition sequential_server (coll : list jsval) (p : nat) (url : string) (w : nat)
  : api_result * nat :=
  (Resolved (search_result (Z.of_nat (List.length coll)) (page_of coll p (S w))), S w).

(** A server that answers every request with the same response. *)
Definition constant_server (responseData : jsval) (url : string) (w : unit)
  : api_result * unit :=
  (Resolved responseData, w).

(** The records [JNum a, JNum (a+1), ...], [n] of them. *)
Fixpoint records (a : Z) (n : nat) : list jsval :=
  match n with
  | O => []
  | S n' => JNum a :: records (a + 1) n'
  end.

End ApiClient.

(* ===================================================================== *)
(** ** Percent-encoding *)
(* ===================================================================== *)

Module Uri.

(** The characters [encodeURIComponent] leaves as they are:
    letters, digits and [- _ . ! ~ * ' ( )]. *)
Definition unreserved (c : ascii) : bool :=
  let n := nat_of_ascii c in
  ((Nat.leb 65 n && Nat.leb n 90) || (Nat.leb 97 n && Nat.leb n 122)
   || (Nat.leb 48 n && Nat.leb n 57)
   || Nat.eqb n 45 || Nat.eqb n 95 || Nat.eqb n 46 || Nat.eqb n 33
   || Nat.eqb n 126 || Nat.eqb n 42 || Nat.eqb n 39 || Nat.eqb n 40
   || Nat.eqb n 41)%bool.

Definition hex_digit (n : nat) : ascii :=
  if Nat.ltb n 10 then ascii_of_nat (48 + n)%nat else ascii_of_nat (55 + n)%nat.

(** One byte of the UTF-8 form, escaped if it has to be. *)
Definition encode_byte (c : ascii) : string :=
  if unreserved c then String c EmptyString
  else
    let n := nat_of_ascii c in
    String "%" (String (hex_digit (n / 16)%nat) (String (hex_digit (n mod 16)%nat) EmptyString)).

Fixpoint encodeURIComponent (s : string) : string :=
  match s with
  | EmptyString => EmptyString
  | String c s' => encode_byte c ++ encodeURIComponent s'
  end.

Definition hex_value (c : ascii) : option nat :=
  let n := nat_of_ascii c in
  if (Nat.leb 48 n && Nat.leb n 57)%bool then Some (n - 48)%nat
  else if (Nat.leb 65 n && Nat.leb n 70)%bool then Some (n - 55)%nat
  else if (Nat.leb 97 n && Nat.leb n 102)%bool then Some (n - 87)%nat
  else None.

(** Percent-decoding, as the receiving side does it: [%XY] is the byte
    with the hexadecimal value [XY], any other byte stands for itself;
    [None] on a [%] that two hexadecimal digits do not follow. *)
Fixpoint percent_decode (s : string) : option string :=
  match s with
  | EmptyString => Some EmptyString
  | String c s' =>
      if Ascii.eqb c "%" then
        match s' with
        | String h (String l s'') =>
            match hex_value h, hex_value l with
            | Some a, Some b =>
                option_map (String (ascii_of_nat (16 * a + b)%nat)) (percent_decode s'')
            | _, _ => None
            end
        | _ => None
        end
      else option_map (String c) (percent_decode s')
  end.

End Uri.

(* ===================================================================== *)
(** ** Reading a query string back *)
(* ===================================================================== *)

Module Query.

Fixpoint has_char (c : ascii) (s : string) : bool :=
  match s with
  | EmptyString => false
  | String a s' => (Ascii.eqb a c || has_char c s')%bool
  end.

(** [s.split(sep)] for a one-character separator. *)
Fixpoint split_on (sep : ascii) (s : string) : list string :=
  match s with
  | EmptyString => [EmptyString]
  | String c s' =>
      if Ascii.eqb c sep then EmptyString :: split_on sep s'
      else match split_on sep s' with
           | [] => [String c EmptyString]
           | p :: ps => String c p :: ps
           end
  end.

(** A [key=value] pair, cut at its first [=]. *)
Fixpoint key_value (pair : string) : string * string :=
  match pair with
  | EmptyString => (EmptyString, EmptyString)
  | String c rest =>
      if Ascii.eqb c "=" then (EmptyString, rest)
      else let (k, v) := key_value rest in (String c k, v)
  end.

Fixpoint lookup (key : string) (pairs : list (string * string)) : option string :=
  match pairs with
  | [] => None
  | (k, v) :: rest => if String.eqb k key then Some v else lookup key rest
  end.

(** The value component of [key] in the query [q], as it is written. *)
Definition raw_value (key q : string) : option string :=
  lookup key (List.map key_value (split_on "&" q)).

(** The same, percent-decoded. *)
Definition value (key q : string) : option string :=
  match raw_value key q with
  | Some v => Uri.percent_decode v
  | None => None
  end.

End Query.

(* ===================================================================== *)
(** ** Date filters (date-utils.js) *)
(* ===================================================================== *)

Module DateUtils.

(** A valid [Date] of the common era, by what its local-time getters
    return; [month] is the month of the calendar, 1 to 12. *)
Record Date : Type := mkDate {
  year : nat;
  month : nat;
  day : nat;
  hours : nat;
  minutes : nat;
  seconds : nat;
  milliseconds : nat
}.

Fixpoint zeros (n : nat) : string :=
  match n with
  | O => EmptyString
  | S n' => String "0" (zeros n')
  end.

(** date-fns pads a number with zeros up to [width] digits. *)
Definition addLeadingZeros (n width : nat) : string :=
  let digits := Str.dec (Z.of_nat n) in
  zeros (width - String.length digits)%nat ++ digits.

(** [format(date, "yyyy-MM-dd HH:mm:ss")] *)
Definition formatDateForMagento (date : Date) : string :=
  addLeadingZeros date.(year) 4 ++ "-" ++ addLeadingZeros date.(month) 2 ++ "-"
  ++ addLeadingZeros date.(day) 2 ++ " " ++ addLeadingZeros date.(hours) 2 ++ ":"
  ++ addLeadingZeros date.(minutes) 2 ++ ":" ++ addLeadingZeros date.(seconds) 2.

Definition buildDateRangeFilter (field : string) (startDate endDate : Date) : string :=
  let formattedStartDate := formatDateForMagento startDate in
  let formattedEndDate := formatDateForMagento endDate in
  Str.join "&"
    [ "searchCriteria[filter_groups][0][filters][0][field]=" ++ field;
      "searchCriteria[filter_groups][0][filters][0][value]="
        ++ Uri.encodeURIComponent formattedStartDate;
      "searchCriteria[filter_groups][0][filters][0][condition_type]=gteq";
      "searchCriteria[filter_groups][1][filters][0][field]=" ++ field;
      "searchCriteria[filter_groups][1][filters][0][value]="
        ++ Uri.encodeURIComponent formattedEndDate;
      "searchCriteria[filter_groups][1][filters][0][condition_type]=lteq" ].

End DateUtils.

(* ===================================================================== *)
(** ** The attribute search tool (attributes.js) *)
(* ===================================================================== *)

Module Attributes.

(** The arguments of [search_product_attributes]; [None] is an argument
    that was not given. *)
Record search_args : Type := mkArgs {
  attribute_code : option string;
  frontend_input : option string;
  is_searchable : option bool;
  is_filterable : option bool;
  page_size : option Z;
  current_page : option Z
}.

Definition given (s : option string) : bool :=
  match s with
  | Some v => negb (String.eqb v EmptyString)
  | None => false
  end.

Definition text (s : option string) : string :=
  match s with Some v => v | None => EmptyString end.

Definition flag (b : option bool) : string :=
  match b with Some true => "1" | _ => "0" end.

Definition filter_key (filterIndex : Z) (part : string) : string :=
  "&searchCriteria[filter_groups][" ++ Str.dec filterIndex ++ "][filters][0][" ++ part ++ "]=".

(** The two variables the handler updates as it goes. *)
Record builder : Type := mkBuilder {
  filterIndex : Z;
  searchCriteria : string
}.

(** [searchCriteria += ...] with the three pairs of one filter. *)
Definition append_filter (b : builder) (field value condition_type : string) : builder :=
  {| filterIndex := b.(filterIndex);
     searchCriteria :=
       b.(searchCriteria)
       ++ (filter_key b.(filterIndex) "field" ++ field
           ++ filter_key b.(filterIndex) "value" ++ value
           ++ filter_key b.(filterIndex) "condition_type" ++ condition_type) |}.

(** [filterIndex++] *)
Definition next_index (b : builder) : builder :=
  {| filterIndex := b.(filterIndex) + 1; searchCriteria := b.(searchCriteria) |}.

(** Lines 47-77: the search criteria the handler sends. *)
Definition search_product_attributes_criteria (a : search_args) : string :=
  let page_size := match a.(page_size) with Some n => n | None => 50 end in
  let current_page := match a.(current_page) with Some n => n | None => 1 end in
  let b0 :=
    {| filterIndex := 0;
       searchCriteria :=
         "searchCriteria[pageSize]=" ++ Str.dec page_size
         ++ "&searchCriteria[currentPage]=" ++ Str.dec current_page |} in
  let b1 :=
    if given a.(attribute_code)
    then next_index
           (append_filter b0 "attribute_code"
              ("%25" ++ Uri.encodeURIComponent (text a.(attribute_code)) ++ "%25") "like")
    else b0 in
  let b2 :=
    if given a.(frontend_input)
    then next_index
           (append_filter b1 "frontend_input"
              (Uri.encodeURIComponent (text a.(frontend_input))) "eq")
    else b1 in
  let b3 :=
    match a.(is_searchable) with
    | Some _ => next_index (append_filter b2 "is_searchable" (flag a.(is_searchable)) "eq")
    | None => b2
    end in
  let b4 :=
    match a.(is_filterable) with
    | Some _ => append_filter b3 "is_filterable" (flag a.(is_filterable)) "eq"
    | None => b3
    end in
  b4.(searchCriteria).

End Attributes.

(* ===================================================================== *)
(** ** Servers without state, and what a response holds *)
(* ===================================================================== *)

Module Served.
Import Js ApiClient.

(** A server whose answer depends on the request only. *)
Definition stateless (respond : string -> api_result) (url : string) (w : unit)
  : api_result * unit :=
  (respond url, w).

(** The items a response brings: the elements of its [items] when that
    is an array, none otherwise. *)
Definition page_items (r : api_result) : list jsval :=
  match r with
  | Resolved responseData =>
      match get_prop responseData "items" with
      | Some items => elems items
      | None => []
      end
  | Rejected _ => []
  end.

(** A server that plays a script: its world is the number of requests
    it has had, and it answers the next one with the next response of
    the script, whatever the request. *)
Definition scripted (script : list api_result) (url : string) (w : nat)
  : api_result * nat :=
  (nth w script (Rejected (ApiError "no more responses")), S w).

(** A server that answers the [k]-th request with the items
    [pages k] and the total count [counts k], whatever the request; its
    world is the number of requests it has had. *)
Definition reporting_server (pages : nat -> list jsval) (counts : nat -> jsval)
    (url : string) (w : nat) : api_result * nat :=
  (Resolved (JObj [("items", JArr (pages (S w))); ("total_count", counts (S w))]), S w).

(** A run that came to an end by itself. *)
Definition ended (o : outcome) : Prop :=
  match o with
  | Returned _ | Thrown _ => True
  | OutOfFuel _ => False
  end.

End Served.

(* ===================================================================== *)
(** ** More string primitives *)
(* ===================================================================== *)

Module StrMore.
Import Str.

(** [/<lit>\d+/.test(s)]: somewhere in [s] the literal [lit] is followed
    by a digit. *)
Fixpoint test_lit_digits (lit s : string) : bool :=
  match strip_prefix lit s with
  | Some rest => head_is_digit rest
  | None => false
  end
  || match s with
     | EmptyString => false
     | String _ s' => test_lit_digits lit s'
     end.

(** Every character of [s] passes [p]. *)
Fixpoint all_chars (p : ascii -> bool) (s : string) : bool :=
  match s with
  | EmptyString => true
  | String c s' => (p c && all_chars p s')%bool
  end.

End StrMore.

(* ===================================================================== *)
(** ** The pairs of a query, and the filters of the attribute search *)
(* ===================================================================== *)

Module QueryView.
Import Str Uri Query Attributes.

(** The characters a percent-encoded text is made of. *)
Definition url_safe (c : ascii) : bool := (unreserved c || Ascii.eqb c "%")%bool.

(** The [key=value] pairs of a query, in the order they are written. *)
Definition pairs (q : string) : list (string * string) :=
  List.map key_value (split_on "&" q).

(** The three pairs that stand for the one filter of filter group [i]. *)
Definition filter_pairs (i : Z) (f : string * string * string) : list (string * string) :=
  let '(field, value, condition_type) := f in
  [ ("searchCriteria[filter_groups][" ++ dec i ++ "][filters][0][field]", field);
    ("searchCriteria[filter_groups][" ++ dec i ++ "][filters][0][value]", value);
    ("searchCriteria[filter_groups][" ++ dec i ++ "][filters][0][condition_type]",
     condition_type) ].

(** The pairs of a list of filters, one filter group each, numbered
    from [i] on. *)
Fixpoint numbered (i : Z) (fs : list (string * string * string)) : list (string * string) :=
  match fs with
  | [] => []
  | f :: rest => (filter_pairs i f ++ numbered (i + 1) rest)%list
  end.

(** The filters an attribute search asks for: field, value as it is
    written in the query, and condition, in the order of the handler. *)
Definition filters_given (a : search_args) : list (string * string * string) :=
  ((if given a.(attribute_code)
    then [("attribute_code",
           ("%25" ++ encodeURIComponent (text a.(attribute_code)) ++ "%25")%string,
           "like")]
    else [])
   ++ (if given a.(frontend_input)
       then [("frontend_input", encodeURIComponent (text a.(frontend_input)), "eq")]
       else [])
   ++ match a.(is_searchable) with
      | Some _ => [("is_searchable", flag a.(is_searchable), "eq")]
      | None => []
      end
   ++ match a.(is_filterable) with
      | Some _ => [("is_filterable", flag a.(is_filterable), "eq")]
      | None => []
      end)%list.

End QueryView.

(* ===================================================================== *)
(** ** The criteria of the analytics tools (analytics.js) *)
(* ===================================================================== *)

Module Analytics.
Import Uri DateUtils Attributes ApiClient.

(** The criteria [get_revenue], [get_product_sales] and
    [get_revenue_by_country] build before they fetch the orders: the
    date range on [created_at], and the status when one is given. *)
Definition order_search_criteria (startDate endDate : Date) (status : option string)
  : string :=
  let searchCriteria := buildDateRangeFilter "created_at" startDate endDate in
  if given status
  then searchCriteria
       ++ ("&searchCriteria[filter_groups][2][filters][0][field]=status&"
           ++ ("searchCriteria[filter_groups][2][filters][0][value]="
               ++ encodeURIComponent (text status) ++ "&")
           ++ "searchCriteria[filter_groups][2][filters][0][condition_type]=eq")
  else searchCriteria.

(** The criteria [get_customer_ordered_products_by_email] fetches the
    orders of a customer with. *)
Definition orderSearchCriteria (email : string) : string :=
  "searchCriteria[filter_groups][0][filters][0][field]=customer_email&"
  ++ ("searchCriteria[filter_groups][0][filters][0][value]="
      ++ encodeURIComponent email ++ "&")
  ++ "searchCriteria[filter_groups][0][filters][0][condition_type]=eq".

End Analytics.

(* ===================================================================== *)
(** ** Case and blanks of ASCII texts *)
(* ===================================================================== *)

Module Text.

(** The texts on which the functions below are the ones of the host
    language: those of ASCII characters only. *)
Definition is_ascii (s : string) : bool :=
  StrMore.all_chars (fun c => Nat.ltb (nat_of_ascii c) 128) s.

Definition is_upper (c : ascii) : bool :=
  let n := nat_of_ascii c in (Nat.leb 65 n && Nat.leb n 90)%bool.

Definition is_lower (c : ascii) : bool :=
  let n := nat_of_ascii c in (Nat.leb 97 n && Nat.leb n 122)%bool.

Definition lower_char (c : ascii) : ascii :=
  if is_upper c then ascii_of_nat (nat_of_ascii c + 32) else c.

Definition upper_char (c : ascii) : ascii :=
  if is_lower c then ascii_of_nat (nat_of_ascii c - 32) else c.

Fixpoint map_chars (f : ascii -> ascii) (s : string) : string :=
  match s with
  | EmptyString => EmptyString
  | String c s' => String (f c) (map_chars f s')
  end.

(** [s.toLowerCase()] and [s.toUpperCase()] *)
Definition toLowerCase (s : string) : string := map_chars lower_char s.
Definition toUpperCase (s : string) : string := map_chars upper_char s.

Fixpoint trim_right (s : string) : string :=
  match s with
  | EmptyString => EmptyString
  | String c s' =>
      match trim_right s' with
      | EmptyString => if Js.is_space c then EmptyString else String c EmptyString
      | r => String c r
      end
  end.

(** [s.trim()] *)
Definition trim (s : string) : string := trim_right (Js.trim_left s).

Definition head_is_blank (s : string) : bool :=
  match s with
  | EmptyString => false
  | String c _ => Js.is_space c
  end.

End Text.

(* ===================================================================== *)
(** ** Country names (date-utils.js) *)
(* ===================================================================== *)

Module Countries.
Import Text.

Definition countryMap : list (string * string) :=
  [ ("netherlands", "NL"); ("the netherlands", "NL"); ("holland", "NL"); ("nl", "NL");
    ("united states", "US"); ("usa", "US"); ("us", "US"); ("america", "US");
    ("united kingdom", "GB"); ("uk", "GB"); ("great britain", "GB"); ("gb", "GB");
    ("england", "GB");
    ("canada", "CA"); ("ca", "CA");
    ("australia", "AU"); ("au", "AU");
    ("germany", "DE"); ("de", "DE");
    ("france", "FR"); ("fr", "FR");
    ("italy", "IT"); ("it", "IT");
    ("spain", "ES"); ("es", "ES");
    ("belgium", "BE"); ("be", "BE");
    ("sweden", "SE"); ("se", "SE");
    ("norway", "NO"); ("no", "NO");
    ("denmark", "DK"); ("dk", "DK");
    ("finland", "FI"); ("fi", "FI");
    ("ireland", "IE"); ("ie", "IE");
    ("switzerland", "CH"); ("ch", "CH");
    ("austria", "AT"); ("at", "AT");
    ("portugal", "PT"); ("pt", "PT");
    ("greece", "GR"); ("gr", "GR");
    ("poland", "PL"); ("pl", "PL");
    ("japan", "JP"); ("jp", "JP");
    ("china", "CN"); ("cn", "CN");
    ("india", "IN"); ("in", "IN");
    ("brazil", "BR"); ("br", "BR");
    ("mexico", "MX"); ("mx", "MX");
    ("south africa", "ZA"); ("za", "ZA") ].

Fixpoint own (key : string) (map : list (string * string)) : option string :=
  match map with
  | [] => None
  | (k, v) :: rest => if String.eqb k key then Some v else own key rest
  end.

(** The names of the members of [Object.prototype] that are written
    without a capital letter: the ones a lower-cased text can be. *)
Definition inherited (key : string) : bool :=
  (String.eqb key "constructor" || String.eqb key "__proto__")%bool.

(** What the array returned holds: a country code, or, for a text
    that names a member of [Object.prototype], that member (which is
    not a string). *)
Inductive country_value : Type :=
| Code (code : string)
| Member (name : string).

(** [countryMap[countryInput]] is an own property of the map, or a
    member the map inherits, or [undefined]; the first two are truthy. *)
Definition normalizeCountry (country : string) : list country_value :=
  let countryInput := toLowerCase (trim country) in
  match own countryInput countryMap with
  | Some code => [Code code]
  | None =>
      if inherited countryInput then [Member countryInput]
      else [Code (toUpperCase countryInput)]
  end.

End Countries.

(* ===================================================================== *)
(** ** The formatters (formatters.js) *)
(* ===================================================================== *)

Module Formatters.
Import Js.
Import ApiClient (elems).

(** The functions below return [None] where the code throws a
    TypeError (a property read on [null] or [undefined]). *)

Fixpoint map_opt {A B} (f : A -> option B) (l : list A) : option (list B) :=
  match l with
  | [] => Some []
  | x :: rest =>
      match f x with
      | Some y => option_map (cons y) (map_opt f rest)
      | None => None
      end
  end.

(** [item => ({ id: item.id, sku: item.sku, ... })] *)
Definition summary (item : jsval) : option jsval :=
  match get_prop item "id", get_prop item "sku", get_prop item "name",
        get_prop item "price", get_prop item "status", get_prop item "type_id" with
  | Some id, Some sku, Some name, Some price, Some status, Some type_id =>
      Some (JObj [("id", id); ("sku", sku); ("name", name); ("price", price);
                  ("status", status); ("type_id", type_id)])
  | _, _, _, _, _, _ => None
  end.

Definition formatSearchResults (results : jsval) : option jsval :=
  if negb (truthy results) then Some (JStr "No products found")
  else
    match get_prop results "items", get_prop results "total_count" with
    | Some items, Some total_count =>
        if (negb (truthy items) || negb (isArray items))%bool
        then Some (JStr "No products found")
        else option_map
               (fun formatted => JObj [("total_count", total_count);
                                       ("items", JArr formatted)])
               (map_opt summary (elems items))
    | _, _ => None
    end.

(** [obj[key] = value] on the own properties of an object made by
    [{}]: the value of a key that is there is replaced, a new key is
    added at the end. *)
Fixpoint set_prop (fields : list (string * jsval)) (key : string) (value : jsval)
  : list (string * jsval) :=
  match fields with
  | [] => [(key, value)]
  | (k, v) :: rest =>
      if String.eqb k key then (k, value) :: rest
      else (k, v) :: set_prop rest key value
  end.

(** The same, the key being any value: it is turned into a string; and
    [__proto__] names no own property (the assignment goes to the
    prototype instead). *)
Definition assign (fields : list (string * jsval)) (key value : jsval)
  : list (string * jsval) :=
  if String.eqb (to_string key) "__proto__" then fields
  else set_prop fields (to_string key) value.

(** [custom_attributes.forEach(attr => { customAttributes[attr.attribute_code] = attr.value })] *)
Fixpoint collect (customAttributes : list (string * jsval)) (attrs : list jsval)
  : option (list (string * jsval)) :=
  match attrs with
  | [] => Some customAttributes
  | attr :: rest =>
      match get_prop attr "attribute_code", get_prop attr "value" with
      | Some code, Some value => collect (assign customAttributes code value) rest
      | _, _ => None
      end
  end.

Definition prop (v : jsval) (k : string) : jsval :=
  match get_prop v k with Some x => x | None => JUndefined end.

Definition formatProduct (product : jsval) : option jsval :=
  if negb (truthy product) then Some (JStr "Product not found")
  else
    let custom_attributes := prop product "custom_attributes" in
    match (if (truthy custom_attributes && isArray custom_attributes)%bool
           then collect [] (elems custom_attributes)
           else Some []) with
    | Some customAttributes =>
        Some (JObj [("id", prop product "id");
                    ("sku", prop product "sku");
                    ("name", prop product "name");
                    ("price", prop product "price");
                    ("status", prop product "status");
                    ("visibility", prop product "visibility");
                    ("type_id", prop product "type_id");
                    ("created_at", prop product "created_at");
                    ("updated_at", prop product "updated_at");
                    ("extension_attributes", prop product "extension_attributes");
                    ("custom_attributes", JObj customAttributes)])
    | None => None
    end.

(** The six names a summary holds. *)
Definition summary_keys : list string :=
  ["id"; "sku"; "name"; "price"; "status"; "type_id"].

Definition is_summary_key (k : string) : bool :=
  existsb (String.eqb k) summary_keys.

(** What the summary of an item holds: an object whose own properties
    are the six fields, as they read on the item, and nothing else. *)
Definition summarises (item out : jsval) : Prop :=
  exists fields,
    out = JObj fields
    /\ forall k, own_prop fields k = if is_summary_key k then prop item k else JUndefined.

(** A value on which a property can be read. *)
Definition readable (v : jsval) : bool :=
  match v with JUndefined | JNull => false | _ => true end.

(** The value of the last attribute of [attrs] whose code reads [key],
    [undefined] when there is none. *)
Fixpoint last_value (key : string) (attrs : list jsval) (found : jsval) : jsval :=
  match attrs with
  | [] => found
  | attr :: rest =>
      if String.eqb (to_string (prop attr "attribute_code")) key
      then last_value key rest (prop attr "value")
      else last_value key rest found
  end.

End Formatters.

(* ===================================================================== *)
(** ** The environment of the encoders *)
(* ===================================================================== *)

Module Ambient.

(** A [Date] object holds an instant, in milliseconds since the epoch.
    [format] of date-fns writes the calendar fields the instant has in
    the time zone of the process: the time zone is the one thing
    besides their arguments that the encoders read. *)
Definition Instant : Type := Z.

Record Env : Type := mkEnv {
  localTime : Instant -> DateUtils.Date
}.

(** A computation that may read and change the environment. *)
Definition M (A : Type) : Type := Env -> A * Env.

Definition ret {A : Type} (a : A) : M A := fun env => (a, env).

Definition bind {A B : Type} (m : M A) (f : A -> M B) : M B :=
  fun env => let (a, env') := m env in f a env'.

Notation "x <- m ;; k" := (bind m (fun x => k))
  (at level 61, m at next level, right associativity).

(** The local-time getters of a [Date]. *)
Definition getFields (date : Instant) : M DateUtils.Date :=
  fun env => (env.(localTime) date, env).

(** What an assignment to [process.env.TZ] does: from then on the
    fields of an instant are the ones the old zone had [ms]
    milliseconds later. No encoder does it. *)
Definition moveZone (ms : Z) : M unit :=
  fun env => (tt, mkEnv (fun t => env.(localTime) (t + ms))).

Definition formatDateForMagento (date : Instant) : M string :=
  fields <- getFields date ;;
  ret (DateUtils.formatDateForMagento fields).

(** [buildDateRangeFilter] on [Date] objects: the start date is
    formatted first, then the end date. *)
Definition buildDateRangeFilter (field : string) (startDate endDate : Instant) : M string :=
  startFields <- getFields startDate ;;
  endFields <- getFields endDate ;;
  ret (DateUtils.buildDateRangeFilter field startFields endFields).

(** The two encoders that read their arguments only. *)
Definition search_product_attributes_criteria (a : Attributes.search_args) : M string :=
  ret (Attributes.search_product_attributes_criteria a).

Definition currentPageSearchCriteria (base : string) (currentPage : nat) : M string :=
  ret (ApiClient.currentPageSearchCriteria base currentPage).

(** Run twice in a row, [m] gives the same value both times and leaves
    the environment as it found it. *)
Definition repeatable {A : Type} (m : M A) : Prop :=
  forall env,
    let (first, env1) := m env in
    let (second, env2) := m env1 in
    first = second /\ env2 = env.

(** Two dates with the same calendar fields down to the second. *)
Definition same_second (a b : DateUtils.Date) : Prop :=
  DateUtils.year a = DateUtils.year b
  /\ DateUtils.month a = DateUtils.month b
  /\ DateUtils.day a = DateUtils.day b
  /\ DateUtils.hours a = DateUtils.hours b
  /\ DateUtils.minutes a = DateUtils.minutes b
  /\ DateUtils.seconds a = DateUtils.seconds b.

(** *** Time zones at a fixed distance from UTC *)

(** Year, month (1 to 12) and day of the proleptic Gregorian calendar,
    [days] days after 1 January 1970. *)
Definition civil_from_days (days : Z) : Z * Z * Z :=
  let z := days + 719468 in
  let era := z / 146097 in
  let doe := z - era * 146097 in
  let yoe := (doe - doe / 1460 + doe / 36524 - doe / 146096) / 365 in
  let doy := doe - (365 * yoe + yoe / 4 - yoe / 100) in
  let mp := (5 * doy + 2) / 153 in
  let d := doy - (153 * mp + 2) / 5 + 1 in
  let m := if mp <? 10 then mp + 3 else mp - 9 in
  let y := yoe + era * 400 + (if m <=? 2 then 1 else 0) in
  (y, m, d).

(** The zone that is [minutes] minutes ahead of UTC all year. *)
Definition fixedZone (minutes : Z) : Env :=
  mkEnv (fun t =>
    let local := t + minutes * 60000 in
    let '(y, m, d) := civil_from_days (local / 86400000) in
    let ms := local mod 86400000 in
    DateUtils.mkDate (Z.to_nat y) (Z.to_nat m) (Z.to_nat d)
      (Z.to_nat (ms / 3600000)) (Z.to_nat ((ms / 60000) mod 60))
      (Z.to_nat ((ms / 1000) mod 60)) (Z.to_nat (ms mod 1000))).

End Ambient.

(* ===================================================================== *)
(** * Properties of the string primitives *)
(* ===================================================================== *)

Module StrFacts.
Import Str.

Lemma append_assoc (a b c : string) : (a ++ b) ++ c = a ++ (b ++ c).
Proof. induction a as [|x a IH]; simpl; [reflexivity | now rewrite IH]. Qed.

Lemma append_nil_r (a : string) : a ++ "" = a.
Proof. induction a as [|x a IH]; simpl; [reflexivity | now rewrite IH]. Qed.


Lemma strip_prefix_app (p r : string) : strip_prefix p (p ++ r) = Some r.
Proof.
  induction p as [|x p IH]; simpl; [reflexivity|].
  now rewrite Ascii.eqb_refl.
Qed.

Lemma strip_prefix_some (p s r : string) : strip_prefix p s = Some r -> s = p ++ r.
Proof.
  revert s. induction p as [|x p IH]; simpl; intros s H.
  - now injection H.
  - destruct s as [|y s]; [discriminate|].
    destruct (Ascii.eqb_spec x y) as [->|]; [|discriminate].
    now rewrite (IH _ H).
Qed.

Lemma starts_with_app (p r : string) : starts_with p (p ++ r) = true.
Proof. unfold starts_with. now rewrite strip_prefix_app. Qed.

Lemma starts_with_more (p s r : string) :
  starts_with p s = true -> starts_with p (s ++ r) = true.
Proof.
  unfold starts_with. destruct (strip_prefix p s) as [t|] eqn:E; [|discriminate].
  intros _. rewrite (strip_prefix_some _ _ _ E), append_assoc.
  now rewrite strip_prefix_app.
Qed.

(** An occurrence anywhere is found. *)
Lemma includes_at (a s sub : string) :
  starts_with sub s = true -> includes (a ++ s) sub = true.
Proof.
  intros H. induction a as [|x a IH].
  - cbn [append]. destruct s; cbn [includes]; now rewrite H.
  - cbn [append includes]. rewrite IH.
    match goal with |- (if ?c then _ else _) = _ => destruct c end; reflexivity.
Qed.

Lemma includes_occurrence (s sub : string) :
  includes s sub = true -> exists a b, s = a ++ sub ++ b.
Proof.
  induction s as [|x s IH]; cbn [includes].
  - unfold starts_with. destruct (strip_prefix sub "") as [r|] eqn:E; [|discriminate].
    intros _. exists "", r. exact (strip_prefix_some _ _ _ E).
  - unfold starts_with. destruct (strip_prefix sub (String x s)) as [r|] eqn:E.
    + intros _. exists "", r. exact (strip_prefix_some _ _ _ E).
    + intros H. destruct (IH H) as (a & b & ->). now exists (String x a), b.
Qed.

Lemma take_skip_digits (s : string) : take_digits s ++ skip_digits s = s.
Proof.
  induction s as [|c s IH]; [reflexivity|]. simpl.
  destruct (is_digit c); simpl; [now rewrite IH | reflexivity].
Qed.

Lemma all_digits_take (s : string) : all_digits (take_digits s) = true.
Proof.
  induction s as [|c s IH]; [reflexivity|]. simpl.
  destruct (is_digit c) eqn:E; simpl; [now rewrite E | reflexivity].
Qed.

Lemma skip_digits_head (s : string) : head_is_digit (skip_digits s) = false.
Proof.
  induction s as [|c s IH]; [reflexivity|]. simpl.
  destruct (is_digit c) eqn:E; [exact IH | simpl; exact E].
Qed.

Lemma take_digits_head (s : string) :
  head_is_digit s = true -> take_digits s <> "".
Proof. destruct s as [|c s]; simpl; [discriminate|]. now intros ->. Qed.

(** The replacement, where the pattern has a match: the string is cut
    in the text before the match, the literal, the digits the match
    reads and the text after them, and only the digits go. *)
Lemma replace_lit_digits_found (lit : string) :
  forall a s d b,
    s = a ++ lit ++ String d b ->
    is_digit d = true ->
    exists pre ds post,
      s = pre ++ lit ++ ds ++ post
      /\ all_digits ds = true /\ ds <> ""
      /\ head_is_digit post = false
      /\ forall repl, replace_lit_digits lit repl s = pre ++ repl ++ post.
Proof.
  assert (Hhere : forall s rest,
             strip_prefix lit s = Some rest -> head_is_digit rest = true ->
             exists pre ds post,
               s = pre ++ lit ++ ds ++ post
               /\ all_digits ds = true /\ ds <> ""
               /\ head_is_digit post = false
               /\ forall repl, replace_lit_digits lit repl s = pre ++ repl ++ post).
  { intros s rest Hstrip Hdigit.
    exists "", (take_digits rest), (skip_digits rest).
    repeat split.
    - cbn [append]. rewrite take_skip_digits. exact (strip_prefix_some _ _ _ Hstrip).
    - apply all_digits_take.
    - now apply take_digits_head.
    - apply skip_digits_head.
    - intros repl. destruct s; cbn [replace_lit_digits append];
        rewrite Hstrip, Hdigit; reflexivity. }
  induction a as [|x a IH]; intros s d b Hs Hd.
  - apply (Hhere s (String d b)); [|exact Hd].
    rewrite Hs. cbn [append]. apply strip_prefix_app.
  - destruct (strip_prefix lit s) as [rest|] eqn:Hstrip.
    + destruct (head_is_digit rest) eqn:Hdigit.
      * exact (Hhere s rest Hstrip Hdigit).
      * destruct (IH (a ++ lit ++ String d b) d b eq_refl Hd)
          as (pre & ds & post & Hcut & Hall & Hne & Hpost & Hrepl).
        exists (String x pre), ds, post. subst s. cbn [append].
        repeat split; try assumption.
        -- now rewrite Hcut at 1.
        -- intros repl. cbn [replace_lit_digits].
           change (String x (a ++ lit ++ String d b))
             with (String x a ++ lit ++ String d b) in Hstrip.
           cbn [append] in Hstrip. rewrite Hstrip, Hdigit. now rewrite Hrepl.
    + destruct (IH (a ++ lit ++ String d b) d b eq_refl Hd)
        as (pre & ds & post & Hcut & Hall & Hne & Hpost & Hrepl).
      exists (String x pre), ds, post. subst s. cbn [append].
      repeat split; try assumption.
      * now rewrite Hcut at 1.
      * intros repl. cbn [replace_lit_digits].
        cbn [append] in Hstrip. rewrite Hstrip. now rewrite Hrepl.
Qed.

(** The replacement, where the pattern has no match: the string is
    returned as it is. *)
Lemma replace_lit_digits_unmatched (lit repl : string) :
  forall s,
    (forall a rest, s = a ++ lit ++ rest -> head_is_digit rest = false) ->
    replace_lit_digits lit repl s = s.
Proof.
  induction s as [|c s IH]; intros Hno.
  - cbn [replace_lit_digits].
    destruct (strip_prefix lit "") as [rest|] eqn:E; [|reflexivity].
    now rewrite (Hno "" rest (strip_prefix_some _ _ _ E)).
  - cbn [replace_lit_digits].
    destruct (strip_prefix lit (String c s)) as [rest|] eqn:E.
    + rewrite (Hno "" rest (strip_prefix_some _ _ _ E)).
      rewrite IH; [reflexivity|].
      intros a r Hs. apply (Hno (String c a) r). cbn [append]. now rewrite Hs.
    + rewrite IH; [reflexivity|].
      intros a r Hs. apply (Hno (String c a) r). cbn [append]. now rewrite Hs.
Qed.

End StrFacts.

(* ===================================================================== *)
(** * Properties of the paginated fetch engine *)
(* ===================================================================== *)

Module EngineFacts.
Import Js ApiClient.

Section Loop.

Context {World : Type}.
Variable callMagentoApi : string -> World -> api_result * World.

#[local] Abbreviation loop := (loop callMagentoApi).
#[local] Abbreviation fetchAllPages := (fetchAllPages callMagentoApi).

Lemma loop_turn fuel endpoint base st w :
  loop (S fuel) endpoint base st w =
  let url := request_url endpoint base (currentPage st) in
  match callMagentoApi url w with
  | (Rejected e, w') => mkRun (Thrown e) [url] w'
  | (Resolved responseData, w') =>
      match after_response st responseData with
      | Raise e => mkRun (Thrown e) [url] w'
      | Break items => mkRun (Returned items) [url] w'
      | Continue st' => sent url (loop fuel endpoint base st' w')
      end
  end.
Proof. reflexivity. Qed.

Lemma sent_before_nil (r : @run World) : sent_before [] r = r.
Proof. destruct r; reflexivity. Qed.

Lemma sent_before_app urls1 urls2 (r : @run World) :
  sent_before urls1 (sent_before urls2 r) = sent_before (urls1 ++ urls2) r.
Proof. unfold sent_before; simpl. now rewrite app_assoc. Qed.

(** A run that was cut while the loop was going goes on from where it
    was when it is given more turns. *)
Lemma loop_resume n m endpoint base :
  forall st w st' reqs w',
    loop n endpoint base st w = mkRun (OutOfFuel st') reqs w' ->
    loop (n + m) endpoint base st w =
    sent_before reqs (loop m endpoint base st' w').
Proof.
  induction n as [|n IH]; intros st w st' reqs w' Hrun.
  - simpl in Hrun. injection Hrun as <- <- <-.
    now rewrite sent_before_nil.
  - change (S n + m)%nat with (S (n + m)).
    rewrite loop_turn in Hrun |- *. cbv zeta in Hrun |- *.
    destruct (callMagentoApi _ w) as [[data | e] w1]; [|discriminate].
    destruct (after_response st data) as [st1 | items | e]; try discriminate.
    unfold sent in Hrun.
    destruct (loop n endpoint base st1 w1) as [res1 reqs1 w2] eqn:Hn.
    unfold sent_before in Hrun; simpl in Hrun.
    injection Hrun as -> <- ->.
    rewrite (IH _ _ _ _ _ Hn). unfold sent.
    now rewrite sent_before_app.
Qed.

(** A turn whose call fails ends the run with that failure. *)
Lemma loop_rejected fuel endpoint base st w e w' :
  callMagentoApi (request_url endpoint base (currentPage st)) w = (Rejected e, w') ->
  loop (S fuel) endpoint base st w =
  mkRun (Thrown e) [request_url endpoint base (currentPage st)] w'.
Proof. intros H. rewrite loop_turn. cbv zeta. now rewrite H. Qed.

(** The turn, when the response carries an array of items: the items
    are appended, and the loop stops by the count or by the short page. *)
Lemma after_response_array st responseData its :
  get_prop responseData "items" = Some (JArr its) ->
  after_response st responseData =
  let allItems' := (allItems st ++ its)%list in
  let totalCount' :=
    if Nat.eqb (currentPage st) 1
    then match get_prop responseData "total_count" with
         | Some tc => or_else tc (JNum 0)
         | None => JNum 0
         end
    else totalCount st in
  if (le_num totalCount' (Z.of_nat (List.length allItems'))
      || (Z.of_nat (List.length its) <? pageSize))%bool
  then Break allItems'
  else Continue {| currentPage := S (currentPage st);
                   allItems := allItems';
                   totalCount := totalCount' |}.
Proof.
  intros Hitems. unfold after_response. rewrite Hitems.
  cbn [truthy isArray andb negb elems orb get_prop String.eqb Ascii.eqb Bool.eqb].
  unfold lt_num at 1. cbn [to_number].
  cbv zeta. now rewrite orb_false_r.
Qed.

(** A turn that reads an array of fewer than 100 items is the last. *)
Lemma loop_short_page fuel endpoint base st w responseData its w' :
  callMagentoApi (request_url endpoint base (currentPage st)) w
  = (Resolved responseData, w') ->
  get_prop responseData "items" = Some (JArr its) ->
  (List.length its < 100)%nat ->
  loop (S fuel) endpoint base st w =
  mkRun (Returned (allItems st ++ its)) [request_url endpoint base (currentPage st)] w'.
Proof.
  intros Hcall Hitems Hshort.
  rewrite loop_turn. cbv zeta. rewrite Hcall.
  rewrite (after_response_array _ _ _ Hitems). cbv zeta.
  replace (Z.of_nat (List.length its) <? pageSize) with true
    by (symmetry; apply Z.ltb_lt; unfold pageSize; lia).
  now rewrite orb_true_r.
Qed.

(** C3. Short-page rule: when the first response carries an array of
    fewer than 100 items, the engine makes that one request and returns
    those items, whatever the response says of [total_count]. *)
Theorem fetchAllPages_short_first_page :
  forall fuel endpoint base w responseData its w',
    callMagentoApi (request_url endpoint base 1) w = (Resolved responseData, w') ->
    get_prop responseData "items" = Some (JArr its) ->
    (List.length its < 100)%nat ->
    fetchAllPages (S fuel) endpoint base w =
    mkRun (Returned its) [request_url endpoint base 1] w'.
Proof.
  intros fuel endpoint base w responseData its w' Hcall Hitems Hshort.
  exact (loop_short_page fuel endpoint base initial_state w responseData its w'
           Hcall Hitems Hshort).
Qed.

(** C5. All or nothing: when the loop has made [n] turns and is still
    going, and the next call fails with [e], the run ends with [e] and
    nothing else: the failing request is the last one made (it is not
    made again), and the items read so far are not returned. *)
Theorem fetchAllPages_failure_propagates :
  forall n fuel endpoint base w0 st reqs w e w',
    fetchAllPages n endpoint base w0 = mkRun (OutOfFuel st) reqs w ->
    callMagentoApi (request_url endpoint base (currentPage st)) w = (Rejected e, w') ->
    (n < fuel)%nat ->
    fetchAllPages fuel endpoint base w0 =
    mkRun (Thrown e) (reqs ++ [request_url endpoint base (currentPage st)]) w'.
Proof.
  intros n fuel endpoint base w0 st reqs w e w' Hrun Hcall Hlt.
  unfold ApiClient.fetchAllPages in *.
  replace fuel with (n + S (fuel - S n))%nat by lia.
  rewrite (loop_resume n _ _ _ _ _ _ _ _ Hrun).
  now rewrite (loop_rejected _ _ _ _ _ _ _ Hcall).
Qed.

(** C2. Exact page boundary: three pages of 100, 100 and 50 items, the
    first response giving [total_count] 250: the engine makes exactly
    the three requests for pages 1, 2 and 3 and returns the 250 items in
    the order the server gave them. *)
Theorem fetchAllPages_three_pages :
  forall fuel endpoint base w0
         r1 p1 w1 r2 p2 w2 r3 p3 w3,
    callMagentoApi (request_url endpoint base 1) w0 = (Resolved r1, w1) ->
    get_prop r1 "items" = Some (JArr p1) ->
    get_prop r1 "total_count" = Some (JNum 250) ->
    callMagentoApi (request_url endpoint base 2) w1 = (Resolved r2, w2) ->
    get_prop r2 "items" = Some (JArr p2) ->
    callMagentoApi (request_url endpoint base 3) w2 = (Resolved r3, w3) ->
    get_prop r3 "items" = Some (JArr p3) ->
    List.length p1 = 100%nat -> List.length p2 = 100%nat -> List.length p3 = 50%nat ->
    fetchAllPages (3 + fuel) endpoint base w0 =
    mkRun (Returned (p1 ++ p2 ++ p3))
          [request_url endpoint base 1; request_url endpoint base 2;
           request_url endpoint base 3] w3.
Proof.
  intros fuel endpoint base w0 r1 p1 w1 r2 p2 w2 r3 p3 w3
         Hc1 Hi1 Ht1 Hc2 Hi2 Hc3 Hi3 L1 L2 L3.
  unfold ApiClient.fetchAllPages, initial_state.
  change (3 + fuel)%nat with (S (S (S fuel))).
  rewrite loop_turn. cbv zeta. cbn [currentPage]. rewrite Hc1.
  rewrite (after_response_array _ _ _ Hi1). cbv zeta.
  cbn [currentPage allItems totalCount Nat.eqb app].
  rewrite Ht1, L1. cbn [or_else truthy Z.eqb negb].
  change (le_num (JNum 250) (Z.of_nat 100) || (Z.of_nat 100 <? pageSize))%bool with false.
  cbv iota.
  rewrite loop_turn. cbv zeta. cbn [currentPage allItems totalCount]. rewrite Hc2.
  rewrite (after_response_array _ _ _ Hi2). cbv zeta.
  cbn [currentPage allItems totalCount Nat.eqb].
  rewrite length_app, L1, L2.
  change (le_num (JNum 250) (Z.of_nat (100 + 100)) || (Z.of_nat 100 <? pageSize))%bool
    with false.
  cbv iota.
  rewrite loop_turn. cbv zeta. cbn [currentPage allItems totalCount]. rewrite Hc3.
  rewrite (after_response_array _ _ _ Hi3). cbv zeta.
  cbn [currentPage allItems totalCount Nat.eqb].
  rewrite !length_app, L1, L2, L3.
  change (le_num (JNum 250) (Z.of_nat (100 + 100 + 50)) || (Z.of_nat 50 <? pageSize))%bool
    with true.
  cbv iota. unfold sent, sent_before. cbn [result requests world app].
  now rewrite <- app_assoc.
Qed.

(** What a turn does with a response whose [items] is there but is not
    an array: nothing is appended and nothing is thrown, and the turn
    goes by the count and by whatever [length] the value has. *)
Lemma after_response_not_array st responseData items :
  get_prop responseData "items" = Some items ->
  isArray items = false ->
  after_response st responseData = Break (allItems st) \/
  exists tc, after_response st responseData =
             Continue {| currentPage := S (currentPage st);
                         allItems := allItems st;
                         totalCount := tc |}.
Proof.
  intros Hitems Hna. unfold after_response. rewrite Hitems, Hna.
  rewrite andb_false_r.
  match goal with |- context [if ?c then Break _ else _] => destruct c end.
  - now left.
  - right. eexists. reflexivity.
Qed.

(** A response without [items] (or with a falsy one) ends the loop at
    that page, with what had been read before. *)
Lemma after_response_no_items st responseData items :
  get_prop responseData "items" = Some items ->
  truthy items = false ->
  after_response st responseData = Break (allItems st).
Proof.
  intros Hitems Hf. unfold after_response. rewrite Hitems, Hf.
  cbn [andb negb]. now rewrite orb_true_r.
Qed.

(** Past the first page the turn does not read [total_count]. *)
Lemma after_response_later_page st r1 r2 :
  currentPage st <> 1%nat ->
  get_prop r1 "items" = get_prop r2 "items" ->
  after_response st r1 = after_response st r2.
Proof.
  intros Hpage Hitems. unfold after_response. rewrite Hitems.
  destruct (Nat.eqb_spec (currentPage st) 1) as [E|_]; [contradiction|].
  reflexivity.
Qed.

Lemma after_response_keeps_total_count st responseData st' :
  currentPage st <> 1%nat ->
  after_response st responseData = Continue st' ->
  totalCount st' = totalCount st /\ currentPage st' = S (currentPage st).
Proof.
  intros Hpage. unfold after_response.
  destruct (get_prop responseData "items") as [items|]; [|discriminate].
  destruct (Nat.eqb_spec (currentPage st) 1) as [E|_]; [contradiction|].
  match goal with |- context [if ?c then Break _ else _] => destruct c end;
    [discriminate|].
  intros H. injection H as <-. now split.
Qed.

Lemma after_response_captures_total_count st responseData st' :
  currentPage st = 1%nat ->
  after_response st responseData = Continue st' ->
  exists tc, get_prop responseData "total_count" = Some tc /\
             totalCount st' = or_else tc (JNum 0).
Proof.
  intros Hpage. unfold after_response.
  destruct (get_prop responseData "items") as [items|] eqn:Hitems; [|discriminate].
  rewrite Hpage. cbn [Nat.eqb].
  match goal with |- context [if ?c then Break _ else _] => destruct c end;
    [discriminate|].
  intros H. injection H as <-. cbn [totalCount].
  destruct responseData; try discriminate; cbn [get_prop]; eexists; split; reflexivity.
Qed.

End Loop.

Lemma fetchAllPages_short_first_page_witness :
  fetchAllPages (constant_server (search_result 500 (records 0 7))) 4 "/orders" "x=1" tt =
  mkRun (Returned (records 0 7))
        ["/orders?x=1&searchCriteria[pageSize]=100&searchCriteria[currentPage]=1"] tt.
Proof.
  apply (fetchAllPages_short_first_page
           (constant_server (search_result 500 (records 0 7)))
           3 "/orders" "x=1" tt (search_result 500 (records 0 7)) (records 0 7) tt).
  - reflexivity.
  - reflexivity.
  - vm_compute. lia.
Defined.

Lemma fetchAllPages_failure_propagates_witness :
  fetchAllPages (failing_server (records 0 250) 2) 5 "/orders" "x=1" tt =
  mkRun (Thrown (ApiError "Internal Server Error"))
        (["/orders?x=1&searchCriteria[pageSize]=100&searchCriteria[currentPage]=1"]
         ++ [request_url "/orders" "x=1" 2]) tt.
Proof.
  apply (fetchAllPages_failure_propagates
           (failing_server (records 0 250) 2) 1 5 "/orders" "x=1" tt
           {| currentPage := 2; allItems := records 0 100; totalCount := JNum 250 |}
           ["/orders?x=1&searchCriteria[pageSize]=100&searchCriteria[currentPage]=1"]
           tt (ApiError "Internal Server Error") tt).
  - vm_compute. reflexivity.
  - vm_compute. reflexivity.
  - lia.
Defined.

Lemma fetchAllPages_three_pages_witness :
  fetchAllPages (paged_server (records 0 250)) (3 + 2) "/orders" "x=1" tt =
  mkRun (Returned (records 0 100 ++ records 100 100 ++ records 200 50))
        [request_url "/orders" "x=1" 1; request_url "/orders" "x=1" 2;
         request_url "/orders" "x=1" 3] tt.
Proof.
  apply (fetchAllPages_three_pages (paged_server (records 0 250)) 2 "/orders" "x=1" tt
           (search_result 250 (records 0 100)) (records 0 100) tt
           (search_result 250 (records 100 100)) (records 100 100) tt
           (search_result 250 (records 200 50)) (records 200 50) tt);
    vm_compute; reflexivity.
Defined.

(* --------------------------------------------------------------------- *)
(** ** Runs against particular servers *)
(* --------------------------------------------------------------------- *)

Lemma search_result_items total items :
  get_prop (search_result total items) "items" = Some (JArr items).
Proof. reflexivity. Qed.

Lemma search_result_total_count total items :
  get_prop (search_result total items) "total_count" = Some (JNum total).
Proof. reflexivity. Qed.

Lemma or_else_num n : or_else (JNum n) (JNum 0) = JNum n.
Proof.
  unfold or_else, truthy. destruct (Z.eqb_spec n 0) as [->|]; reflexivity.
Qed.

Lemma length_records a n : List.length (records a n) = n.
Proof. revert a; induction n; intros a; simpl; [reflexivity | now rewrite IHn]. Qed.

(** The total count in the variables of the loop once a turn has read
    [total] on the first page or held it before. *)
Lemma held_total_count st total :
  (currentPage st = 1%nat \/ totalCount st = JNum total) ->
  (if Nat.eqb (currentPage st) 1 then JNum total else totalCount st) = JNum total.
Proof.
  intros H. destruct (Nat.eqb_spec (currentPage st) 1) as [_|Hne]; [reflexivity|].
  destruct H as [E|E]; [contradiction | exact E].
Qed.

(** Against full pages and a total that is not reached, the loop goes on
    for as many turns as it is given. *)
Lemma full_pages_keep_going total endpoint base :
  forall fuel st,
    (currentPage st = 1%nat \/ totalCount st = JNum total) ->
    Z.of_nat (List.length (allItems st)) + 100 * Z.of_nat fuel < total ->
    exists st',
      loop (constant_server (search_result total (records 0 100)))
           fuel endpoint base st tt =
      mkRun (OutOfFuel st')
            (List.map (request_url endpoint base) (seq (currentPage st) fuel)) tt
      /\ currentPage st' = (currentPage st + fuel)%nat
      /\ Z.of_nat (List.length (allItems st')) =
         Z.of_nat (List.length (allItems st)) + 100 * Z.of_nat fuel.
Proof.
  induction fuel as [|fuel IH]; intros st Htc Hlt.
  - exists st. cbn [loop seq List.map]. repeat split; lia.
  - rewrite loop_turn. cbv zeta. unfold constant_server at 1.
    rewrite (after_response_array _ _ _ (search_result_items _ _)).
    cbv zeta. rewrite search_result_total_count, or_else_num.
    rewrite (held_total_count _ _ Htc).
    rewrite length_app, length_records.
    replace (le_num (JNum total) (Z.of_nat (List.length (allItems st) + 100))
             || (Z.of_nat 100 <? pageSize))%bool with false.
    2:{ symmetry. apply orb_false_iff. split.
        - unfold le_num, to_number. apply Z.leb_gt. lia.
        - reflexivity. }
    destruct (IH {| currentPage := S (currentPage st);
                    allItems := (allItems st ++ records 0 100)%list;
                    totalCount := JNum total |}) as (st' & Hrun & Hpage & Hlen).
    + right. reflexivity.
    + cbn [allItems]. rewrite length_app, length_records. lia.
    + exists st'. rewrite Hrun. unfold sent, sent_before.
      cbn [result requests world currentPage allItems app seq List.map] in *.
      repeat split.
      * lia.
      * rewrite Hlen, length_app, length_records. lia.
Qed.

(** C8. No bound on the number of pages: for every [n] there is a
    server, answering each request with exactly 100 items and a total
    count above what has been read, against which the engine has made
    [n + 1] requests (one per page from 1 on) and is still going. *)
Theorem fetchAllPages_no_page_bound :
  forall (n : nat) endpoint base,
  exists total st,
    fetchAllPages (constant_server (search_result total (records 0 100)))
                  (S n) endpoint base tt =
    mkRun (OutOfFuel st)
          (List.map (request_url endpoint base) (seq 1 (S n))) tt
    /\ List.length (records 0 100) = 100%nat
    /\ currentPage st = S (S n)
    /\ Z.of_nat (List.length (allItems st)) < total.
Proof.
  intros n endpoint base.
  exists (100 * Z.of_nat (S n) + 1).
  destruct (full_pages_keep_going (100 * Z.of_nat (S n) + 1) endpoint base
              (S n) initial_state) as (st & Hrun & Hpage & Hlen).
  - left. reflexivity.
  - cbn [initial_state allItems List.length]. lia.
  - exists st. unfold fetchAllPages. rewrite Hrun.
    cbn [initial_state currentPage allItems List.length] in *.
    repeat split; lia.
Qed.

(** Against a server whose [items] is an object, the loop reads nothing
    and goes on for as many turns as it is given. *)
Lemma object_items_keep_going endpoint base :
  forall fuel st,
    allItems st = [] ->
    (currentPage st = 1%nat \/ totalCount st = JNum 5) ->
    exists st',
      loop (constant_server (JObj [("items", JObj []); ("total_count", JNum 5)]))
           fuel endpoint base st tt =
      mkRun (OutOfFuel st')
            (List.map (request_url endpoint base) (seq (currentPage st) fuel)) tt
      /\ allItems st' = []
      /\ currentPage st' = (currentPage st + fuel)%nat.
Proof.
  induction fuel as [|fuel IH]; intros st Hnil Htc.
  - exists st. cbn [loop seq List.map]. repeat split; [exact Hnil | lia].
  - rewrite loop_turn. cbv zeta. unfold constant_server at 1.
    unfold after_response.
    change (get_prop (JObj [("items", JObj []); ("total_count", JNum 5)]) "items")
      with (Some (JObj [])).
    change (get_prop (JObj [("items", JObj []); ("total_count", JNum 5)]) "total_count")
      with (Some (JNum 5)).
    cbn [truthy isArray andb negb]. rewrite or_else_num, (held_total_count _ _ Htc).
    rewrite Hnil.
    change (le_num (JNum 5) (Z.of_nat (List.length (@nil jsval))) || false
            || match get_prop (JObj []) "length" with
               | Some len => lt_num len pageSize
               | None => false
               end)%bool with false.
    cbv iota.
    destruct (IH {| currentPage := S (currentPage st); allItems := [];
                    totalCount := JNum 5 |}) as (st' & Hrun & Hnil' & Hpage).
    + reflexivity.
    + right. reflexivity.
    + exists st'. rewrite Hrun. unfold sent, sent_before.
      cbn [result requests world currentPage app seq List.map] in *.
      repeat split; [exact Hnil' | lia].
Qed.

(** C6, at the input where the code departs from it. A page whose
    [items] is the empty array ends the fetch at once; a page whose
    [items] is an object, which is neither absent nor an array, does
    not: with [total_count] 5 the engine reads nothing, requests the
    next page, and so on for as long as it is let run. *)
Theorem fetchAllPages_object_items_never_stops :
  forall fuel endpoint base,
    fetchAllPages (constant_server (JObj [("items", JArr []); ("total_count", JNum 5)]))
                  (S fuel) endpoint base tt =
    mkRun (Returned []) [request_url endpoint base 1] tt
    /\
    exists st,
      fetchAllPages (constant_server (JObj [("items", JObj []); ("total_count", JNum 5)]))
                    fuel endpoint base tt =
      mkRun (OutOfFuel st)
            (List.map (request_url endpoint base) (seq 1 fuel)) tt
      /\ allItems st = [] /\ currentPage st = S fuel.
Proof.
  intros fuel endpoint base. split.
  - apply (loop_short_page
             (constant_server (JObj [("items", JArr []); ("total_count", JNum 5)]))
             fuel endpoint base initial_state tt
             (JObj [("items", JArr []); ("total_count", JNum 5)]) [] tt).
    + reflexivity.
    + reflexivity.
    + cbn [List.length]. lia.
  - destruct (object_items_keep_going endpoint base fuel initial_state)
      as (st & Hrun & Hnil & Hpage).
    + reflexivity.
    + left. reflexivity.
    + exists st. unfold fetchAllPages. rewrite Hrun.
      repeat split; [exact Hnil | exact Hpage].
Qed.

(** C1, at the input where the code departs from it. The server holds
    120 records and serves them in pages of the size the query asks
    for; the caller's criteria ask for pages of 50. The engine makes
    one request and returns the first 50 records only: the page it got
    is shorter than its own constant of 100. *)
Theorem fetchAllPages_caller_page_size_50 :
  forall fuel,
    fetchAllPages (paged_server (records 0 120)) (S fuel)
                  "/orders" "searchCriteria[pageSize]=50" tt =
    mkRun (Returned (records 0 50))
          ["/orders?searchCriteria[pageSize]=50&searchCriteria[currentPage]=1"] tt
    /\ List.length (records 0 50) = 50%nat
    /\ List.length (records 0 120) = 120%nat.
Proof.
  intros fuel. split; [|split; reflexivity].
  vm_compute. reflexivity.
Qed.

(* --------------------------------------------------------------------- *)
(** ** The total count is read once *)
(* --------------------------------------------------------------------- *)

Lemma after_response_next_page st responseData st' :
  after_response st responseData = Continue st' ->
  currentPage st' = S (currentPage st).
Proof.
  unfold after_response.
  destruct (get_prop responseData "items") as [items|]; [|discriminate].
  match goal with |- context [if ?c then Break _ else _] => destruct c end;
    [discriminate|].
  intros H. now injection H as <-.
Qed.

Lemma appended_items items :
  (if (truthy items && isArray items)%bool then ([] ++ elems items)%list else [])
  = elems items.
Proof.
  destruct items; cbn [isArray elems]; rewrite ?andb_false_r; try reflexivity.
Qed.

(** What [reporting_server] answers. *)
Lemma reported_items (its : list jsval) (count : jsval) :
  get_prop (JObj [("items", JArr its); ("total_count", count)]) "items" = Some (JArr its).
Proof. reflexivity. Qed.

Lemma reported_total_count (its : list jsval) (count : jsval) :
  get_prop (JObj [("items", JArr its); ("total_count", count)]) "total_count" = Some count.
Proof. destruct count; reflexivity. Qed.

(** Served full pages, the loop stops by the count it took on the
    first page and by nothing else: it goes on while fewer items than
    that count have been read, whatever the count of the page at hand. *)
Lemma loop_by_first_count endpoint base pages counts total extra :
  forall m st,
    (1 <= currentPage st)%nat ->
    (currentPage st = 1%nat ->
     to_number (or_else (counts 1%nat) (JNum 0)) = Some total) ->
    (currentPage st <> 1%nat -> to_number (totalCount st) = Some total) ->
    List.length (allItems st) = (100 * (currentPage st - 1))%nat ->
    (forall j, (currentPage st <= j <= currentPage st + m)%nat ->
               List.length (pages j) = 100%nat) ->
    total <= 100 * Z.of_nat (currentPage st + m) ->
    (m = 0%nat \/ 100 * Z.of_nat (currentPage st + m - 1) < total) ->
    loop (Served.reporting_server pages counts) (S m + extra) endpoint base st
         (currentPage st - 1)%nat =
    mkRun (Returned (allItems st ++ flat_map pages (seq (currentPage st) (S m))))
          (List.map (request_url endpoint base) (seq (currentPage st) (S m)))
          (currentPage st + m)%nat.
Proof.
  induction m as [|m IH]; intros st Hk Hfirst Hlater Hlen Hfull Hstop Hgo;
    change (S ?a + extra)%nat with (S (a + extra));
    rewrite loop_turn; cbv zeta; unfold Served.reporting_server at 1;
    replace (S (currentPage st - 1)) with (currentPage st) by lia;
    rewrite (after_response_array st _ _ (reported_items _ _)); cbv zeta;
    rewrite reported_total_count;
    assert (Hnum : to_number (if Nat.eqb (currentPage st) 1
                              then or_else (counts (currentPage st)) (JNum 0)
                              else totalCount st) = Some total)
      by (destruct (Nat.eqb_spec (currentPage st) 1) as [E|E];
          [rewrite E; exact (Hfirst E) | exact (Hlater E)]);
    unfold le_num; rewrite Hnum;
    rewrite length_app, Hlen, (Hfull (currentPage st)) by lia;
    change (Z.of_nat 100 <? pageSize) with false; rewrite orb_false_r.
  - replace (total <=? Z.of_nat (100 * (currentPage st - 1) + 100)) with true
      by (symmetry; apply Z.leb_le; lia).
    cbn [seq flat_map List.map]. rewrite app_nil_r.
    now rewrite Nat.add_0_r.
  - replace (total <=? Z.of_nat (100 * (currentPage st - 1) + 100)) with false
      by (symmetry; apply Z.leb_gt; destruct Hgo as [Hgo|Hgo]; [discriminate | lia]).
    specialize (IH {| currentPage := S (currentPage st);
                      allItems := allItems st ++ pages (currentPage st);
                      totalCount := if Nat.eqb (currentPage st) 1
                                    then or_else (counts (currentPage st)) (JNum 0)
                                    else totalCount st |}).
    cbn [currentPage allItems totalCount] in IH.
    replace (S (currentPage st) - 1)%nat with (currentPage st) in IH by lia.
    rewrite IH.
    + unfold sent, sent_before. cbn [result requests world seq flat_map List.map app].
      rewrite <- app_assoc. f_equal. lia.
    + lia.
    + intros E. lia.
    + intros _. exact Hnum.
    + rewrite length_app, Hlen, (Hfull (currentPage st)) by lia. lia.
    + intros j Hj. apply Hfull. lia.
    + destruct Hgo as [Hgo|Hgo]; [discriminate|]. lia.
    + right. destruct Hgo as [Hgo|Hgo]; [discriminate|].
      replace (S (currentPage st) + m - 1)%nat with (currentPage st + S m - 1)%nat by lia.
      exact Hgo.
Qed.

Section TwoServers.

Context {World : Type}.
Variables call1 call2 : string -> World -> api_result * World.

(** From the second page on, two servers that give the same [items] make
    the same run. *)
Lemma loop_same_items endpoint base :
  (forall url w, same_items (call1 url w) (call2 url w)) ->
  forall fuel st w,
    (2 <= currentPage st)%nat ->
    loop call1 fuel endpoint base st w = loop call2 fuel endpoint base st w.
Proof.
  intros Hsame. induction fuel as [|fuel IH]; intros st w Hpage; [reflexivity|].
  rewrite !loop_turn. cbv zeta.
  specialize (Hsame (request_url endpoint base (currentPage st)) w).
  destruct (call1 _ w) as [[d1|e1] w1], (call2 _ w) as [[d2|e2] w2];
    destruct Hsame as [Hw Hres]; cbn [fst snd] in Hw, Hres; subst;
    try contradiction; [|reflexivity].
  rewrite (after_response_later_page st d1 d2 ltac:(lia) Hres).
  destruct (after_response st d2) as [st'| |] eqn:Hturn; try reflexivity.
  rewrite IH; [reflexivity|].
  rewrite (after_response_next_page _ _ _ Hturn). lia.
Qed.

(** C7. The total count the loop stops by is the one of the first
    response. (1) When the first response has no [total_count], the
    count is 0 and nothing is thrown: the engine stops at that page and
    returns its items. (2) A turn that goes on holds, after the first
    page, [total_count || 0] of that response, and after any later page
    the count it held before. (3) Two servers that give the same first
    response and, to every request, the same items (whatever the
    [total_count] they report with them) make the same run. (4) The
    count of the first response is what the loop stops by: served
    pages of 100 items, the engine makes [n] requests and returns the
    items of the first [n] pages when the first response counts more
    than [100 (n - 1)] and at most [100 n] items (for [n = 1]: at most
    100), whatever counts the later responses report. *)
Theorem total_count_from_first_page :
  forall fuel endpoint base w0,
    (forall responseData items w1,
        call1 (request_url endpoint base 1) w0 = (Resolved responseData, w1) ->
        get_prop responseData "total_count" = Some JUndefined ->
        get_prop responseData "items" = Some items ->
        fetchAllPages call1 (S fuel) endpoint base w0 =
        mkRun (Returned (elems items)) [request_url endpoint base 1] w1)
    /\
    (forall st responseData st',
        after_response st responseData = Continue st' ->
        (currentPage st = 1%nat ->
         exists tc, get_prop responseData "total_count" = Some tc /\
                    totalCount st' = or_else tc (JNum 0))
        /\ (currentPage st <> 1%nat -> totalCount st' = totalCount st))
    /\
    (call1 (request_url endpoint base 1) w0 = call2 (request_url endpoint base 1) w0 ->
     (forall url w, same_items (call1 url w) (call2 url w)) ->
     fetchAllPages call1 fuel endpoint base w0 =
     fetchAllPages call2 fuel endpoint base w0)
    /\
    (forall pages counts total n,
        (1 <= n)%nat ->
        (forall j, (1 <= j <= n)%nat -> List.length (pages j) = 100%nat) ->
        to_number (or_else (counts 1%nat) (JNum 0)) = Some total ->
        total <= 100 * Z.of_nat n ->
        (n = 1%nat \/ 100 * Z.of_nat (n - 1) < total) ->
        fetchAllPages (Served.reporting_server pages counts) (n + fuel) endpoint base 0%nat =
        mkRun (Returned (flat_map pages (seq 1 n)))
              (List.map (request_url endpoint base) (seq 1 n)) n).
Proof.
  intros fuel endpoint base w0. split; [|split; [|split]].
  - intros responseData items w1 Hcall Htc Hitems.
    unfold fetchAllPages. rewrite loop_turn. cbv zeta.
    change (currentPage initial_state) with 1%nat. rewrite Hcall.
    unfold after_response. rewrite Hitems, Htc.
    change (allItems initial_state) with (@nil jsval).
    change (Nat.eqb (currentPage initial_state) 1) with true. cbv iota.
    change (or_else JUndefined (JNum 0)) with (JNum 0).
    rewrite appended_items.
    replace (le_num (JNum 0) (Z.of_nat (List.length (elems items)))) with true
      by (symmetry; apply Z.leb_le; lia).
    reflexivity.
  - intros st responseData st' Hturn. split; intros Hpage.
    + exact (after_response_captures_total_count _ _ _ Hpage Hturn).
    + exact (proj1 (after_response_keeps_total_count _ _ _ Hpage Hturn)).
  - intros Hfirst Hsame. unfold fetchAllPages.
    destruct fuel as [|fuel]; [reflexivity|].
    rewrite !loop_turn. cbv zeta.
    change (currentPage initial_state) with 1%nat. rewrite Hfirst.
    destruct (call2 _ w0) as [[d|e] w1]; [|reflexivity].
    destruct (after_response initial_state d) as [st'| |] eqn:Hturn; try reflexivity.
    rewrite (loop_same_items endpoint base Hsame); [reflexivity|].
    rewrite (after_response_next_page _ _ _ Hturn). reflexivity.
  - intros pages counts total n Hn Hfull Hnum Hstop Hgo.
    destruct n as [|m]; [lia|]. unfold fetchAllPages.
    apply (loop_by_first_count endpoint base pages counts total fuel m initial_state);
      cbn [initial_state currentPage allItems totalCount List.length].
    + lia.
    + intros _. exact Hnum.
    + intros E. now contradiction E.
    + reflexivity.
    + intros j Hj. apply Hfull. lia.
    + exact Hstop.
    + destruct Hgo as [Hgo|Hgo]; [left; lia | right].
      replace (1 + m - 1)%nat with (S m - 1)%nat by lia. exact Hgo.
Qed.

End TwoServers.

Lemma total_count_from_first_page_witness :
  fetchAllPages (constant_server (JObj [("items", JArr (records 0 100))]))
                3 "/orders" "x=1" tt =
  mkRun (Returned (records 0 100)) [request_url "/orders" "x=1" 1] tt
  /\
  (exists tc,
      get_prop (search_result 250 (records 0 100)) "total_count" = Some tc
      /\ totalCount {| currentPage := 2; allItems := records 0 100;
                       totalCount := JNum 250 |} = or_else tc (JNum 0))
  /\
  totalCount {| currentPage := 3; allItems := records 0 200; totalCount := JNum 250 |}
  = totalCount {| currentPage := 2; allItems := records 0 100; totalCount := JNum 250 |}
  /\
  fetchAllPages (paged_server (records 0 250)) 5 "/orders" "x=1" tt =
  fetchAllPages (miscounting_server (records 0 250)) 5 "/orders" "x=1" tt
  /\
  fetchAllPages
    (Served.reporting_server (fun j => records (100 * Z.of_nat j) 100)
       (fun j => if Nat.eqb j 1 then JNum 250 else JNum 0))
    (3 + 5) "/orders" "x=1" 0%nat =
  mkRun (Returned (flat_map (fun j => records (100 * Z.of_nat j) 100) (seq 1 3)))
        (List.map (request_url "/orders" "x=1") (seq 1 3)) 3%nat.
Proof.
  split; [|split; [|split; [|split]]].
  - apply (proj1 (total_count_from_first_page
                    (constant_server (JObj [("items", JArr (records 0 100))]))
                    (constant_server (JObj [("items", JArr (records 0 100))]))
                    2 "/orders" "x=1" tt)
                 (JObj [("items", JArr (records 0 100))])
                 (JArr (records 0 100)) tt);
      reflexivity.
  - apply (proj1 (proj1 (proj2 (total_count_from_first_page
                                  (constant_server JNull) (constant_server JNull)
                                  0 "/orders" "x=1" tt))
                        initial_state (search_result 250 (records 0 100))
                        {| currentPage := 2; allItems := records 0 100;
                           totalCount := JNum 250 |}
                        eq_refl));
      reflexivity.
  - apply (proj2 (proj1 (proj2 (total_count_from_first_page
                                  (constant_server JNull) (constant_server JNull)
                                  0 "/orders" "x=1" tt))
                        {| currentPage := 2; allItems := records 0 100;
                           totalCount := JNum 250 |}
                        (search_result 0 (records 100 100))
                        {| currentPage := 3; allItems := records 0 200;
                           totalCount := JNum 250 |}
                        eq_refl));
      discriminate.
  - apply (proj1 (proj2 (proj2 (total_count_from_first_page
                                  (paged_server (records 0 250))
                                  (miscounting_server (records 0 250))
                                  5 "/orders" "x=1" tt)))).
    + vm_compute. reflexivity.
    + intros url []. unfold same_items, paged_server, miscounting_server.
      destruct (query_number "searchCriteria[pageSize]" url);
        destruct (query_number "searchCriteria[currentPage]" url);
        cbn [fst snd]; split; reflexivity.
  - apply (proj2 (proj2 (proj2 (total_count_from_first_page
                                  (constant_server JNull) (constant_server JNull)
                                  5 "/orders" "x=1" tt)))
                 (fun j => records (100 * Z.of_nat j) 100)
                 (fun j => if Nat.eqb j 1 then JNum 250 else JNum 0) 250 3%nat).
    + lia.
    + intros j _. apply length_records.
    + reflexivity.
    + lia.
    + right. lia.
Defined.

(* --------------------------------------------------------------------- *)
(** ** When the engine does return every item *)
(* --------------------------------------------------------------------- *)

Lemma firstn_then_page {A} (l : list A) :
  forall a b, (firstn a l ++ firstn b (skipn a l))%list = firstn (a + b) l.
Proof.
  induction l as [|x l IH]; intros a b.
  - now rewrite skipn_nil, !firstn_nil.
  - destruct a as [|a]; [reflexivity|].
    cbn [firstn skipn Nat.add app]. now rewrite IH.
Qed.

Section PagedCollection.

Context {World : Type}.
Variable callMagentoApi : string -> World -> api_result * World.
Variables endpoint base : string.
Variable coll : list jsval.
Variable p : nat.

(** The server holds [coll] and serves it in pages of [p], the size the
    criteria of the requests ask for: in a world that is [ready] for
    page [k], the request for page [k] is answered with that page and
    the size of the collection, and the world is then ready for page
    [k + 1]. *)
Variable ready : nat -> World -> Prop.
Hypothesis serves :
  forall k w,
    ready k w ->
    exists w',
      callMagentoApi (request_url endpoint base k) w =
      (Resolved (search_result (Z.of_nat (List.length coll)) (page_of coll p k)), w')
      /\ ready (S k) w'.

Lemma paged_turn st :
  (1 <= currentPage st)%nat ->
  allItems st = firstn ((currentPage st - 1) * p) coll ->
  (currentPage st = 1%nat \/ totalCount st = JNum (Z.of_nat (List.length coll))) ->
  after_response st
    (search_result (Z.of_nat (List.length coll)) (page_of coll p (currentPage st))) =
  if (Nat.leb (List.length coll) (currentPage st * p)
      || Nat.ltb (List.length (page_of coll p (currentPage st))) 100)%bool
  then Break (firstn (currentPage st * p) coll)
  else Continue {| currentPage := S (currentPage st);
                   allItems := firstn (currentPage st * p) coll;
                   totalCount := JNum (Z.of_nat (List.length coll)) |}.
Proof.
  intros Hk Hacc Htc.
  rewrite (after_response_array _ _ _ (search_result_items _ _)). cbv zeta.
  rewrite search_result_total_count, or_else_num, (held_total_count _ _ Htc).
  rewrite Hacc.
  assert (Happ : (firstn ((currentPage st - 1) * p) coll
                  ++ page_of coll p (currentPage st))%list
                 = firstn (currentPage st * p) coll).
  { unfold page_of. rewrite firstn_then_page. f_equal. nia. }
  rewrite !Happ, length_firstn.
  replace (le_num (JNum (Z.of_nat (List.length coll)))
             (Z.of_nat (Nat.min (currentPage st * p) (List.length coll))))
    with (Nat.leb (List.length coll) (currentPage st * p)).
  2:{ unfold le_num, to_number.
      destruct (Nat.leb_spec (List.length coll) (currentPage st * p));
        symmetry; [apply Z.leb_le | apply Z.leb_gt]; lia. }
  replace (Z.of_nat (List.length (page_of coll p (currentPage st))) <? pageSize)
    with (Nat.ltb (List.length (page_of coll p (currentPage st))) 100).
  2:{ unfold pageSize.
      destruct (Nat.ltb_spec (List.length (page_of coll p (currentPage st))) 100);
        symmetry; [apply Z.ltb_lt | apply Z.ltb_ge]; lia. }
  reflexivity.
Qed.

Lemma length_page_of k :
  List.length (page_of coll p k) = Nat.min p (List.length coll - (k - 1) * p).
Proof. unfold page_of. now rewrite length_firstn, length_skipn. Qed.

(** With pages of 100 items or more, the loop reads the collection to
    its end. *)
Lemma loop_reads_all :
  (100 <= p)%nat ->
  forall fuel st w,
    ready (currentPage st) w ->
    (1 <= currentPage st)%nat ->
    ((currentPage st - 1) * p <= List.length coll)%nat ->
    allItems st = firstn ((currentPage st - 1) * p) coll ->
    (currentPage st = 1%nat \/ totalCount st = JNum (Z.of_nat (List.length coll))) ->
    (List.length coll < (currentPage st - 1 + fuel) * p)%nat ->
    result (loop callMagentoApi fuel endpoint base st w) = Returned coll.
Proof.
  intros Hp. induction fuel as [|fuel IH]; intros st w Hready Hk Hread Hacc Htc Hfuel.
  - exfalso. rewrite Nat.add_0_r in Hfuel. lia.
  - rewrite loop_turn. cbv zeta.
    destruct (serves (currentPage st) w Hready) as (w' & -> & Hready').
    rewrite (paged_turn st Hk Hacc Htc).
    destruct (Nat.leb_spec (List.length coll) (currentPage st * p)) as [Hend|Hmore].
    + cbn [orb result]. now rewrite firstn_all2.
    + rewrite length_page_of.
      destruct (Nat.ltb_spec (Nat.min p (List.length coll - (currentPage st - 1) * p)) 100)
        as [Hshort|_]; [nia|].
      cbn [orb]. unfold sent, sent_before. cbn [result].
      apply IH; cbn [currentPage allItems totalCount].
      * exact Hready'.
      * lia.
      * replace (S (currentPage st) - 1)%nat with (currentPage st) by lia. lia.
      * f_equal. lia.
      * right. reflexivity.
      * replace (S (currentPage st) - 1 + fuel)%nat
          with (currentPage st - 1 + S fuel)%nat by lia.
        exact Hfuel.
Qed.

(** The engine returns the whole collection when the pages it is
    served have 100 items or more. *)
Theorem fetchAllPages_reads_all_from_100 :
  (100 <= p)%nat ->
  forall fuel w,
    ready 1%nat w ->
    (List.length coll < fuel * p)%nat ->
    result (fetchAllPages callMagentoApi fuel endpoint base w) = Returned coll.
Proof.
  intros Hp fuel w Hready Hfuel. unfold fetchAllPages.
  apply (loop_reads_all Hp); cbn [initial_state currentPage allItems].
  - exact Hready.
  - lia.
  - cbn. lia.
  - reflexivity.
  - left. reflexivity.
  - exact Hfuel.
Qed.

(** With pages of fewer than 100 items, the engine stops after the
    first page, whatever the size of the collection. *)
Theorem fetchAllPages_first_page_only_below_100 :
  (p < 100)%nat ->
  forall fuel w,
    ready 1%nat w ->
    result (fetchAllPages callMagentoApi (S fuel) endpoint base w) =
    Returned (firstn p coll)
    /\ List.length (requests (fetchAllPages callMagentoApi (S fuel) endpoint base w))
       = 1%nat.
Proof.
  intros Hp fuel w Hready. unfold fetchAllPages.
  destruct (serves 1 w Hready) as (w' & Hcall & _).
  assert (Hshort : (List.length (page_of coll p 1) < 100)%nat).
  { rewrite length_page_of. lia. }
  rewrite (loop_short_page callMagentoApi fuel endpoint base initial_state w _ _ w'
             Hcall (search_result_items _ _) Hshort).
  cbn [result requests List.length initial_state allItems app].
  unfold page_of. cbn [Nat.sub Nat.mul skipn]. now split.
Qed.

End PagedCollection.

(** For instance: 250 records served 100 at a time are all returned,
    and served 50 at a time only the first 50 are. *)
Lemma sequential_server_serves coll p :
  forall k w,
    k = S w ->
    exists w',
      sequential_server coll p (request_url "/orders" "x=1" k) w =
      (Resolved (search_result (Z.of_nat (List.length coll)) (page_of coll p k)), w')
      /\ S k = S w'.
Proof. intros k w ->. exists (S w). split; reflexivity. Qed.

Example reads_all_in_pages_of_100 :
  result (fetchAllPages (sequential_server (records 0 250) 100) 3 "/orders" "x=1" 0%nat)
  = Returned (records 0 250).
Proof.
  apply (fetchAllPages_reads_all_from_100
           (sequential_server (records 0 250) 100) "/orders" "x=1" (records 0 250) 100
           (fun k w => k = S w) (sequential_server_serves (records 0 250) 100)).
  - lia.
  - reflexivity.
  - rewrite length_records. lia.
Qed.

Example first_page_only_in_pages_of_50 :
  result (fetchAllPages (sequential_server (records 0 250) 50) 7 "/orders" "x=1" 0%nat)
  = Returned (firstn 50 (records 0 250)).
Proof.
  apply (fetchAllPages_first_page_only_below_100
           (sequential_server (records 0 250) 50) "/orders" "x=1" (records 0 250) 50
           (fun k w => k = S w) (sequential_server_serves (records 0 250) 50)).
  - lia.
  - reflexivity.
Qed.

End EngineFacts.

(* ===================================================================== *)
(** * The criteria sent for each page *)
(* ===================================================================== *)

Module CriteriaFacts.
Import Str StrFacts ApiClient.

(** The two paths on which the page number is set. When the base
    criteria hold the page-size key, the criteria of every page are the
    base criteria with nothing but the page number set: appended as
    [&searchCriteria[currentPage]=k] when the base criteria do not hold
    the current-page key; put in the place of the digits when the base
    criteria hold [searchCriteria[currentPage]=] followed by digits, the
    text before and after those digits being kept as it is. No
    [searchCriteria[pageSize]=100] is added in either case. *)
Theorem currentPageSearchCriteria_respects_pageSize :
  forall base,
    includes base "searchCriteria[pageSize]" = true ->
    (includes base "searchCriteria[currentPage]" = false ->
     forall k,
       currentPageSearchCriteria base k =
       base ++ "&searchCriteria[currentPage]=" ++ dec (Z.of_nat k))
    /\
    (forall a d b,
        base = a ++ "searchCriteria[currentPage]=" ++ String d b ->
        is_digit d = true ->
        exists pre ds post,
          base = pre ++ "searchCriteria[currentPage]=" ++ ds ++ post
          /\ all_digits ds = true /\ ds <> ""
          /\ head_is_digit post = false
          /\ forall k,
               currentPageSearchCriteria base k =
               pre ++ "searchCriteria[currentPage]=" ++ dec (Z.of_nat k) ++ post).
Proof.
  intros base Hsize. split.
  - intros Hpage k. unfold currentPageSearchCriteria.
    rewrite Hsize. cbn [negb]. now rewrite Hpage.
  - intros a d b Hbase Hd.
    assert (Hpage : includes base "searchCriteria[currentPage]" = true).
    { rewrite Hbase. apply includes_at. reflexivity. }
    destruct (replace_lit_digits_found "searchCriteria[currentPage]=" a base d b Hbase Hd)
      as (pre & ds & post & Hcut & Hall & Hne & Hpost & Hrepl).
    exists pre, ds, post. repeat split; try assumption.
    intros k. unfold currentPageSearchCriteria.
    rewrite Hsize. cbn [negb]. rewrite Hpage. cbn [negb].
    rewrite Hrepl. now rewrite append_assoc.
Qed.

Lemma currentPageSearchCriteria_respects_pageSize_witness :
  currentPageSearchCriteria "searchCriteria[pageSize]=50" 2 =
  "searchCriteria[pageSize]=50&searchCriteria[currentPage]=2"
  /\
  exists pre ds post,
    "searchCriteria[currentPage]=1&searchCriteria[pageSize]=50" =
    pre ++ "searchCriteria[currentPage]=" ++ ds ++ post
    /\ all_digits ds = true /\ ds <> ""
    /\ head_is_digit post = false
    /\ forall k,
         currentPageSearchCriteria
           "searchCriteria[currentPage]=1&searchCriteria[pageSize]=50" k =
         pre ++ "searchCriteria[currentPage]=" ++ dec (Z.of_nat k) ++ post.
Proof.
  split.
  - exact (proj1 (currentPageSearchCriteria_respects_pageSize
                    "searchCriteria[pageSize]=50" eq_refl) eq_refl 2%nat).
  - exact (proj2 (currentPageSearchCriteria_respects_pageSize
                    "searchCriteria[currentPage]=1&searchCriteria[pageSize]=50" eq_refl)
                 "" "1"%char "&searchCriteria[pageSize]=50" eq_refl eq_refl).
Defined.

End CriteriaFacts.

(* ===================================================================== *)
(** * Properties of the encoding *)
(* ===================================================================== *)

Module EncodingFacts.
Import Str StrFacts Uri Query.

Lemma option_map_map {A B C} (f : A -> B) (g : B -> C) (o : option A) :
  option_map g (option_map f o) = option_map (fun x => g (f x)) o.
Proof. destruct o; reflexivity. Qed.




Lemma has_char_app c (a b : string) :
  has_char c (a ++ b) = (has_char c a || has_char c b)%bool.
Proof.
  induction a as [|x a IH]; cbn [append has_char]; [reflexivity|].
  now rewrite IH, orb_assoc.
Qed.

Lemma encode_byte_plain (c : ascii) :
  has_char "&" (encode_byte c) = false /\ has_char "=" (encode_byte c) = false.
Proof. destruct c as [[] [] [] [] [] [] [] []]; split; reflexivity. Qed.

(** The escaped text holds neither [&] nor [=]. *)
Lemma encodeURIComponent_plain (s : string) :
  has_char "&" (encodeURIComponent s) = false
  /\ has_char "=" (encodeURIComponent s) = false.
Proof.
  induction s as [|c s [IHa IHe]]; cbn [encodeURIComponent]; [now split|].
  rewrite !has_char_app, IHa, IHe.
  destruct (encode_byte_plain c) as [-> ->]. now split.
Qed.

Lemma split_on_last sep (a : string) :
  has_char sep a = false -> split_on sep a = [a].
Proof.
  induction a as [|x a IH]; cbn [has_char split_on]; [reflexivity|].
  intros H. apply orb_false_iff in H. destruct H as [Hx Ha].
  rewrite Hx, (IH Ha). reflexivity.
Qed.


Lemma key_value_app (k v : string) :
  has_char "=" k = false -> key_value (k ++ String "=" v) = (k, v).
Proof.
  induction k as [|x k IH]; cbn [has_char key_value append].
  - reflexivity.
  - intros H. apply orb_false_iff in H. destruct H as [Hx Hk].
    rewrite Hx, (IH Hk). reflexivity.
Qed.



Lemma dec_uint_plain (d : Decimal.uint) :
  has_char "&" (NilEmpty.string_of_uint d) = false.
Proof. induction d; cbn [NilEmpty.string_of_uint has_char]; try exact IHd; reflexivity. Qed.

(** The decimal form of a number holds no [&]. *)
Lemma dec_plain (n : Z) : has_char "&" (dec n) = false.
Proof.
  unfold dec, NilZero.string_of_int, NilZero.string_of_uint.
  destruct (Z.to_int n) as [d|d]; destruct d;
    cbn [has_char Ascii.eqb Bool.eqb orb]; try reflexivity;
    apply (dec_uint_plain _).
Qed.

End EncodingFacts.

Module RoundTrip.
Import Str StrFacts Uri Query EncodingFacts DateUtils Attributes.

(** Brings a string built by appending to the form in which every
    append is to the right of a character. *)
Ltac flatten_appends :=
  repeat first [rewrite !append_assoc | progress cbn [append]].

Lemma literal_key_value (k v : string) :
  has_char "&" k = false -> has_char "&" v = false ->
  has_char "&" (k ++ String "=" v) = false.
Proof.
  intros Hk Hv. rewrite has_char_app. cbn [has_char]. now rewrite Hk, Hv.
Qed.


Lemma split_on_nonempty sep (s : string) : split_on sep s <> [].
Proof.
  destruct s as [|c s]; cbn [split_on]; [discriminate|].
  destruct (Ascii.eqb c sep); [discriminate|].
  destruct (split_on sep s); discriminate.
Qed.

Lemma split_on_append sep (q t : string) :
  split_on sep (q ++ String sep t) = (split_on sep q ++ split_on sep t)%list.
Proof.
  induction q as [|c q IH]; cbn [append split_on].
  - now rewrite Ascii.eqb_refl.
  - destruct (Ascii.eqb c sep); rewrite IH; [reflexivity|].
    destruct (split_on sep q) as [|p ps] eqn:E; [|reflexivity].
    now destruct (split_on_nonempty sep q).
Qed.




Lemma filter_key_head i part :
  filter_key i part =
  String "&" ("searchCriteria[filter_groups][" ++ dec i ++ "][filters][0][" ++ part ++ "]=").
Proof. reflexivity. Qed.


Lemma next_index_criteria b : searchCriteria (next_index b) = searchCriteria b.
Proof. reflexivity. Qed.





End RoundTrip.

(* ===================================================================== *)
(** * The encoding is a function of the criteria *)
(* ===================================================================== *)

Module Determinism.
Import DateUtils Attributes ApiClient.

(** The encoding of a date reads its calendar fields down to the
    second and nothing else. *)
Lemma formatDateForMagento_reads_to_the_second y mo d h mi s ms ms' :
  formatDateForMagento (mkDate y mo d h mi s ms) =
  formatDateForMagento (mkDate y mo d h mi s ms').
Proof. reflexivity. Qed.

(** What the encoder of a date range returns in an environment: the
    encoding of the fields the two instants have there. *)
Lemma buildDateRangeFilter_in env field startDate endDate :
  Ambient.buildDateRangeFilter field startDate endDate env =
  (buildDateRangeFilter field (Ambient.localTime env startDate)
     (Ambient.localTime env endDate), env).
Proof. reflexivity. Qed.

(** The time zone is read: the same instant is encoded differently in
    two zones. *)
Example encoding_reads_the_time_zone :
  fst (Ambient.formatDateForMagento 1704067199999 (Ambient.fixedZone 0))
  = "2023-12-31 23:59:59"
  /\ fst (Ambient.formatDateForMagento 1704067199999 (Ambient.fixedZone 60))
     = "2024-01-01 00:59:59".
Proof. split; vm_compute; reflexivity. Qed.

(** Not every computation is repeatable: one that moves the zone
    before it encodes gives another string the second time. *)
Example moving_the_zone_is_not_repeatable :
  ~ Ambient.repeatable
      (Ambient.bind (Ambient.moveZone 3600000)
         (fun _ => Ambient.buildDateRangeFilter "created_at" 0 0)).
Proof.
  intros H. specialize (H (Ambient.fixedZone 0)).
  unfold Ambient.bind, Ambient.moveZone, Ambient.buildDateRangeFilter,
    Ambient.getFields, Ambient.ret in H.
  cbn [Ambient.localTime] in H. destruct H as [H _].
  vm_compute in H. discriminate H.
Qed.

Lemma formatDateForMagento_same_second a b :
  Ambient.same_second a b -> formatDateForMagento a = formatDateForMagento b.
Proof.
  destruct a, b. unfold Ambient.same_second. cbn [year month day hours minutes seconds].
  intros (-> & -> & -> & -> & -> & ->). reflexivity.
Qed.

(** C9. Encoding the same criteria twice gives the same bytes. The
    encoders are run in the environment they can read (the time zone
    through which the fields of a [Date] are read). In every
    environment, two calls in a row of [buildDateRangeFilter] with the
    same field and dates, of the attribute search with the same
    arguments, and of the per-page criteria with the same base criteria
    and page, return equal strings, and the environment is after them
    as it was before, so that the same holds of every further call.
    And the bytes of a date range go by the criteria alone: two calls,
    in whatever environments and on whatever [Date] objects, return
    equal strings as soon as the field is the same and the start dates
    and the end dates read the same calendar fields down to the
    second. *)
Theorem encoding_twice_is_identical :
  (forall field startDate endDate,
      Ambient.repeatable (Ambient.buildDateRangeFilter field startDate endDate))
  /\ (forall a, Ambient.repeatable (Ambient.search_product_attributes_criteria a))
  /\ (forall base page, Ambient.repeatable (Ambient.currentPageSearchCriteria base page))
  /\ (forall field env env' startDate startDate' endDate endDate',
         Ambient.same_second (Ambient.localTime env startDate)
                             (Ambient.localTime env' startDate') ->
         Ambient.same_second (Ambient.localTime env endDate)
                             (Ambient.localTime env' endDate') ->
         fst (Ambient.buildDateRangeFilter field startDate endDate env) =
         fst (Ambient.buildDateRangeFilter field startDate' endDate' env')).
Proof.
  split; [|split; [|split]].
  - intros field startDate endDate env.
    rewrite !buildDateRangeFilter_in. split; reflexivity.
  - intros a env.
    unfold Ambient.search_product_attributes_criteria, Ambient.ret. split; reflexivity.
  - intros base page env.
    unfold Ambient.currentPageSearchCriteria, Ambient.ret. split; reflexivity.
  - intros field env env' startDate startDate' endDate endDate' Hstart Hend.
    rewrite !buildDateRangeFilter_in. cbn [fst]. unfold buildDateRangeFilter.
    cbv zeta.
    now rewrite (formatDateForMagento_same_second _ _ Hstart),
                (formatDateForMagento_same_second _ _ Hend).
Qed.

Lemma encoding_twice_is_identical_witness :
  fst (Ambient.buildDateRangeFilter "created_at" 1704067200000 1706745599999
         (Ambient.fixedZone 0)) =
  fst (Ambient.buildDateRangeFilter "created_at" 1704063600000 1706741999000
         (Ambient.fixedZone 60)).
Proof.
  apply (proj2 (proj2 (proj2 encoding_twice_is_identical))
           "created_at" (Ambient.fixedZone 0) (Ambient.fixedZone 60));
    vm_compute; repeat split; reflexivity.
Defined.

End Determinism.

(* ===================================================================== *)
(** * Further properties of the fetch engine *)
(* ===================================================================== *)

Module EngineMore.
Import Js ApiClient Served EngineFacts.

Section AnyServer.

Context {World : Type}.
Variable callMagentoApi : string -> World -> api_result * World.

Lemma loop_requests fuel endpoint base :
  forall st w,
    requests (loop callMagentoApi fuel endpoint base st w) =
    List.map (request_url endpoint base)
      (seq (currentPage st)
           (List.length (requests (loop callMagentoApi fuel endpoint base st w))))
    /\ (List.length (requests (loop callMagentoApi fuel endpoint base st w)) <= fuel)%nat.
Proof.
  induction fuel as [|fuel IH]; intros st w; [split; [reflexivity | cbn; lia]|].
  rewrite loop_turn. cbv zeta.
  destruct (callMagentoApi _ w) as [[d|e] w1]; [|split; [reflexivity | cbn; lia]].
  destruct (after_response st d) as [st'| |] eqn:Hturn;
    try (split; [reflexivity | cbn; lia]).
  destruct (IH st' w1) as [Hreq Hlen].
  unfold sent, sent_before. cbn [requests app List.length seq List.map].
  rewrite (after_response_next_page _ _ _ Hturn) in Hreq.
  split; [now rewrite <- Hreq | lia].
Qed.

End AnyServer.

(** What a turn appends is what the response brings. *)
Lemma after_response_appends st d :
  match after_response st d with
  | Continue st' => allItems st' = (allItems st ++ page_items (Resolved d))%list
  | Break items => items = (allItems st ++ page_items (Resolved d))%list
  | Raise _ => True
  end.
Proof.
  unfold after_response, page_items.
  destruct (get_prop d "items") as [items|]; [|exact I].
  assert (Happ : (if (truthy items && isArray items)%bool
                  then (allItems st ++ elems items)%list else allItems st)
                 = (allItems st ++ elems items)%list).
  { destruct items; cbn [isArray elems]; rewrite ?andb_false_r, ?app_nil_r;
      try reflexivity. }
  rewrite Happ.
  match goal with |- context [if ?c then Break _ else _] => destruct c end;
    reflexivity.
Qed.

Lemma loop_returns_what_was_served (respond : string -> api_result) fuel endpoint base :
  forall st items,
    result (loop (stateless respond) fuel endpoint base st tt) = Returned items ->
    items =
    (allItems st
     ++ flat_map (fun url => page_items (respond url))
          (requests (loop (stateless respond) fuel endpoint base st tt)))%list.
Proof.
  induction fuel as [|fuel IH]; intros st items; [discriminate|].
  rewrite loop_turn. cbv zeta. unfold stateless at 1 3.
  destruct (respond (request_url endpoint base (currentPage st))) as [d|e] eqn:Hres;
    [|discriminate].
  pose proof (after_response_appends st d) as Happ.
  destruct (after_response st d) as [st'|its|e]; try discriminate.
  - unfold sent, sent_before. cbn [result requests app flat_map].
    intros H. rewrite (IH st' items H), Happ, Hres. now rewrite <- app_assoc.
  - cbn [result requests flat_map]. intros [= <-].
    now rewrite Hres, app_nil_r.
Qed.

(** X2. What the engine returns is what it was served: against a server
    without state, the list returned is the items of the responses to
    the requests made, page after page; nothing is left out, repeated
    or moved. *)
Theorem returned_items_are_the_pages_served :
  forall (respond : string -> api_result) fuel endpoint base items,
    result (fetchAllPages (stateless respond) fuel endpoint base tt) = Returned items ->
    items =
    flat_map (fun url => page_items (respond url))
      (requests (fetchAllPages (stateless respond) fuel endpoint base tt)).
Proof.
  intros respond fuel endpoint base items H.
  exact (loop_returns_what_was_served respond fuel endpoint base initial_state items H).
Qed.

Lemma returned_items_are_the_pages_served_witness :
  records 0 250 =
  flat_map (fun url => page_items (fst (paged_server (records 0 250) url tt)))
    (requests (fetchAllPages
                 (stateless (fun url => fst (paged_server (records 0 250) url tt)))
                 5 "/orders" "x=1" tt)).
Proof.
  apply (returned_items_are_the_pages_served
           (fun url => fst (paged_server (records 0 250) url tt)) 5 "/orders" "x=1").
  vm_compute. reflexivity.
Defined.

Section ArrayPages.

Context {World : Type}.
Variable callMagentoApi : string -> World -> api_result * World.

(** Every response has an [items] that is an array, or none. *)
Hypothesis arrays :
  forall url w d w' items,
    callMagentoApi url w = (Resolved d, w') ->
    get_prop d "items" = Some items ->
    truthy items = true ->
    isArray items = true.

Lemma continue_grows st d st' items :
  get_prop d "items" = Some items ->
  (truthy items = true -> isArray items = true) ->
  after_response st d = Continue st' ->
  currentPage st <> 1%nat ->
  totalCount st' = totalCount st
  /\ le_num (totalCount st) (Z.of_nat (List.length (allItems st'))) = false
  /\ (List.length (allItems st) + 100 <= List.length (allItems st'))%nat.
Proof.
  intros Hitems Harr Hturn Hpage.
  unfold after_response in Hturn. rewrite Hitems in Hturn.
  destruct (Nat.eqb_spec (currentPage st) 1) as [E|_]; [contradiction|].
  destruct (truthy items) eqn:Ht.
  2:{ cbn [andb negb] in Hturn. rewrite orb_true_r in Hturn. discriminate. }
  specialize (Harr eq_refl). destruct items; try discriminate.
  cbn [andb isArray negb elems get_prop String.eqb Ascii.eqb Bool.eqb] in Hturn.
  unfold lt_num in Hturn. cbn [to_number] in Hturn.
  match type of Hturn with (if ?c then _ else _) = _ => destruct c eqn:Hc end;
    [discriminate|].
  injection Hturn as <-. cbn [totalCount allItems].
  rewrite orb_false_r in Hc. apply orb_false_iff in Hc. destruct Hc as [Hle Hlt].
  repeat split; [exact Hle|].
  rewrite length_app. apply Z.ltb_ge in Hlt. unfold pageSize in Hlt. lia.
Qed.

Lemma loop_ends (total : Z) fuel endpoint base :
  forall st w,
    (2 <= currentPage st)%nat ->
    to_number (totalCount st) = Some total ->
    total <= Z.of_nat (List.length (allItems st)) + 100 * Z.of_nat fuel ->
    (1 <= fuel)%nat ->
    ended (result (loop callMagentoApi fuel endpoint base st w)).
Proof.
  induction fuel as [|fuel IH]; intros st w Hpage Htc Hbound Hfuel; [lia|].
  rewrite loop_turn. cbv zeta.
  destruct (callMagentoApi _ w) as [[d|e] w1] eqn:Hcall; [|exact I].
  destruct (after_response st d) as [st'| |] eqn:Hturn; try exact I.
  unfold sent, sent_before. cbn [result].
  destruct (get_prop d "items") as [items|] eqn:Hitems.
  2:{ unfold after_response in Hturn. rewrite Hitems in Hturn. discriminate. }
  destruct (continue_grows st d st' items Hitems
              (arrays _ _ _ _ _ Hcall Hitems) Hturn ltac:(lia)) as (Hsame & Hle & Hgrow).
  unfold le_num in Hle. rewrite Htc in Hle. apply Z.leb_gt in Hle.
  apply IH.
  - rewrite (after_response_next_page _ _ _ Hturn). lia.
  - now rewrite Hsame.
  - lia.
  - lia.
Qed.

(** X3. The engine comes to an end when the pages are arrays: if the
    first response gives a total count that reads as the number
    [total], and every response has an [items] that is an array or
    none, the run ends by itself (with a result or with an error)
    within [fuel] requests, for every [fuel >= 1] with
    [total <= 100 * fuel]. *)
Theorem fetchAllPages_ends_within_total :
  forall fuel endpoint base w d w1 tc total,
    callMagentoApi (request_url endpoint base 1) w = (Resolved d, w1) ->
    get_prop d "total_count" = Some tc ->
    to_number (or_else tc (JNum 0)) = Some total ->
    total <= 100 * Z.of_nat fuel ->
    (1 <= fuel)%nat ->
    ended (result (fetchAllPages callMagentoApi fuel endpoint base w))
    /\ (List.length (requests (fetchAllPages callMagentoApi fuel endpoint base w))
        <= fuel)%nat.
Proof.
  intros fuel endpoint base w d w1 tc total Hcall Htc Hnum Hbound Hfuel.
  split; [|apply (proj2 (loop_requests callMagentoApi fuel endpoint base initial_state w))].
  unfold fetchAllPages. destruct fuel as [|fuel]; [lia|].
  rewrite loop_turn. cbv zeta. change (currentPage initial_state) with 1%nat.
  rewrite Hcall.
  destruct (after_response initial_state d) as [st'| |] eqn:Hturn; try exact I.
  unfold sent, sent_before. cbn [result].
  destruct (get_prop d "items") as [items|] eqn:Hitems.
  2:{ unfold after_response in Hturn. rewrite Hitems in Hturn. discriminate. }
  (* the first turn went on: it read a full array and holds the count *)
  assert (Hst' : currentPage st' = 2%nat
                 /\ to_number (totalCount st') = Some total
                 /\ total > Z.of_nat (List.length (allItems st'))
                 /\ (100 <= List.length (allItems st'))%nat).
  { pose proof (arrays _ _ _ _ _ Hcall Hitems) as Harr.
    unfold after_response in Hturn. rewrite Hitems, Htc in Hturn.
    change (Nat.eqb (currentPage initial_state) 1) with true in Hturn.
    change (allItems initial_state) with (@nil jsval) in Hturn.
    cbv iota in Hturn.
    destruct (truthy items) eqn:Ht.
    2:{ cbn [andb negb] in Hturn. rewrite orb_true_r in Hturn. discriminate. }
    specialize (Harr eq_refl). destruct items; try discriminate.
    cbn [andb isArray negb elems get_prop String.eqb Ascii.eqb Bool.eqb app] in Hturn.
    unfold lt_num in Hturn. cbn [to_number] in Hturn.
    match type of Hturn with (if ?c then _ else _) = _ => destruct c eqn:Hc end;
      [discriminate|].
    injection Hturn as <-. cbn [currentPage totalCount allItems].
    rewrite orb_false_r in Hc. apply orb_false_iff in Hc. destruct Hc as [Hle Hlt].
    unfold le_num in Hle. rewrite Hnum in Hle.
    apply Z.leb_gt in Hle. apply Z.ltb_ge in Hlt. unfold pageSize in Hlt.
    repeat split; [exact Hnum | lia | lia]. }
  destruct Hst' as (Hpage & Hnum' & Hmore & Hfull).
  apply (loop_ends total); [rewrite Hpage; lia | exact Hnum' | lia | lia].
Qed.

End ArrayPages.

Lemma fetchAllPages_ends_within_total_witness :
  ended (result (fetchAllPages (paged_server (records 0 250)) 3 "/orders" "x=1" tt))
  /\ (List.length (requests (fetchAllPages (paged_server (records 0 250)) 3
                                          "/orders" "x=1" tt)) <= 3)%nat.
Proof.
  apply (fetchAllPages_ends_within_total (paged_server (records 0 250))) with
    (d := search_result 250 (records 0 100)) (w1 := tt) (tc := JNum 250) (total := 250).
  - intros url [] d [] items Hcall Hitems _.
    unfold paged_server in Hcall.
    destruct (query_number "searchCriteria[pageSize]" url);
      destruct (query_number "searchCriteria[currentPage]" url);
      try discriminate.
    injection Hcall as <-. cbn in Hitems. injection Hitems as <-. reflexivity.
  - vm_compute. reflexivity.
  - reflexivity.
  - reflexivity.
  - lia.
  - lia.
Defined.

Section EndOfData.

Context {World : Type}.
Variable callMagentoApi : string -> World -> api_result * World.

(** X4. A response without [items] (absent, [null] or otherwise falsy)
    ends the fetch at that page, whatever the total count says: the
    engine returns what it had read before and makes no further
    request. *)
Theorem fetchAllPages_stops_on_missing_items :
  forall n fuel endpoint base w0 st reqs w d w' items,
    fetchAllPages callMagentoApi n endpoint base w0 = mkRun (OutOfFuel st) reqs w ->
    callMagentoApi (request_url endpoint base (currentPage st)) w = (Resolved d, w') ->
    get_prop d "items" = Some items ->
    truthy items = false ->
    (n < fuel)%nat ->
    fetchAllPages callMagentoApi fuel endpoint base w0 =
    mkRun (Returned (allItems st))
          (reqs ++ [request_url endpoint base (currentPage st)]) w'.
Proof.
  intros n fuel endpoint base w0 st reqs w d w' items Hrun Hcall Hitems Hfalsy Hlt.
  unfold fetchAllPages in *.
  replace fuel with (n + S (fuel - S n))%nat by lia.
  rewrite (loop_resume callMagentoApi n _ _ _ _ _ _ _ _ Hrun).
  rewrite loop_turn. cbv zeta. rewrite Hcall.
  now rewrite (after_response_no_items st d items Hitems Hfalsy).
Qed.

(** X5. A response body that is [null] (or [undefined]) is not taken
    for an empty page: reading its [items] throws, the fetch ends with
    a TypeError and the items read so far are not returned. *)
Theorem fetchAllPages_throws_on_null_body :
  forall n fuel endpoint base w0 st reqs w d w',
    fetchAllPages callMagentoApi n endpoint base w0 = mkRun (OutOfFuel st) reqs w ->
    callMagentoApi (request_url endpoint base (currentPage st)) w = (Resolved d, w') ->
    d = JNull \/ d = JUndefined ->
    (n < fuel)%nat ->
    fetchAllPages callMagentoApi fuel endpoint base w0 =
    mkRun (Thrown TypeError)
          (reqs ++ [request_url endpoint base (currentPage st)]) w'.
Proof.
  intros n fuel endpoint base w0 st reqs w d w' Hrun Hcall Hnull Hlt.
  unfold fetchAllPages in *.
  replace fuel with (n + S (fuel - S n))%nat by lia.
  rewrite (loop_resume callMagentoApi n _ _ _ _ _ _ _ _ Hrun).
  rewrite loop_turn. cbv zeta. rewrite Hcall.
  destruct Hnull as [-> | ->]; reflexivity.
Qed.

End EndOfData.

Lemma fetchAllPages_stops_on_missing_items_witness :
  fetchAllPages
    (scripted [Resolved (search_result 500 (records 0 100));
               Resolved (JObj [("total_count", JNum 500)])])
    5 "/orders" "x=1" 0%nat =
  mkRun (Returned (records 0 100))
        ([request_url "/orders" "x=1" 1] ++ [request_url "/orders" "x=1" 2]) 2%nat.
Proof.
  apply (fetchAllPages_stops_on_missing_items
           (scripted [Resolved (search_result 500 (records 0 100));
                      Resolved (JObj [("total_count", JNum 500)])])
           1 5 "/orders" "x=1" 0%nat
           {| currentPage := 2; allItems := records 0 100; totalCount := JNum 500 |}
           [request_url "/orders" "x=1" 1] 1%nat
           (JObj [("total_count", JNum 500)]) 2%nat JUndefined).
  - vm_compute. reflexivity.
  - reflexivity.
  - reflexivity.
  - reflexivity.
  - lia.
Defined.

Lemma fetchAllPages_throws_on_null_body_witness :
  fetchAllPages
    (scripted [Resolved (search_result 500 (records 0 100)); Resolved JNull])
    5 "/orders" "x=1" 0%nat =
  mkRun (Thrown TypeError)
        ([request_url "/orders" "x=1" 1] ++ [request_url "/orders" "x=1" 2]) 2%nat.
Proof.
  apply (fetchAllPages_throws_on_null_body
           (scripted [Resolved (search_result 500 (records 0 100)); Resolved JNull])
           1 5 "/orders" "x=1" 0%nat
           {| currentPage := 2; allItems := records 0 100; totalCount := JNum 500 |}
           [request_url "/orders" "x=1" 1] 1%nat JNull 2%nat).
  - vm_compute. reflexivity.
  - reflexivity.
  - left. reflexivity.
  - lia.
Defined.

End EngineMore.

(* ===================================================================== *)
(** * Further properties of the criteria sent for each page *)
(* ===================================================================== *)

Module CriteriaMore.
Import Str StrMore StrFacts Query ApiClient.

Lemma strip_prefix_blocked c (sub : string) :
  has_char c sub = false ->
  forall s r,
    starts_with sub s = false ->
    strip_prefix sub (s ++ String c r) = None.
Proof.
  intros Hc. induction sub as [|y sub IH]; intros s r Hs; [discriminate|].
  cbn [has_char] in Hc. apply orb_false_iff in Hc. destruct Hc as [Hy Hsub].
  destruct s as [|z s]; cbn [append strip_prefix].
  - now rewrite Hy.
  - unfold starts_with in Hs. cbn [strip_prefix] in Hs.
    destruct (Ascii.eqb y z); [|reflexivity].
    apply (IH Hsub). unfold starts_with.
    now destruct (strip_prefix sub s).
Qed.

Lemma includes_false_inv x s sub :
  includes (String x s) sub = false ->
  starts_with sub (String x s) = false /\ includes s sub = false.
Proof.
  cbn [includes]. destruct (starts_with sub (String x s)); [discriminate|].
  now split.
Qed.

(** A text that does not hold [sub] does not come to hold it by being
    followed by a text that does not hold it either and whose first
    character is none of [sub]. *)
Lemma includes_blocked c (sub a b : string) :
  has_char c sub = false ->
  includes a sub = false ->
  includes (String c b) sub = false ->
  includes (a ++ String c b) sub = false.
Proof.
  intros Hc Ha Hb. induction a as [|x a IH]; [exact Hb|].
  destruct (includes_false_inv _ _ _ Ha) as [Hx Ha'].
  cbn [append includes]. unfold starts_with.
  change (String x (a ++ String c b)) with (String x a ++ String c b).
  rewrite (strip_prefix_blocked c sub Hc _ _ Hx). exact (IH Ha').
Qed.

Lemma includes_more (a b sub : string) :
  includes a sub = true -> includes (a ++ b) sub = true.
Proof.
  intros H. destruct (includes_occurrence _ _ H) as (p & q & ->).
  rewrite append_assoc. apply includes_at.
  rewrite append_assoc. apply starts_with_app.
Qed.

Lemma starts_with_prefix (p q s : string) :
  starts_with (p ++ q) s = true -> starts_with p s = true.
Proof.
  unfold starts_with.
  destruct (strip_prefix (p ++ q) s) as [r|] eqn:E; [|discriminate].
  intros _. rewrite (strip_prefix_some _ _ _ E), append_assoc.
  now rewrite strip_prefix_app.
Qed.

Lemma includes_longer (s p q : string) :
  includes s p = false -> includes s (p ++ q) = false.
Proof.
  induction s as [|x s IH]; cbn [includes].
  - destruct (starts_with p "") eqn:E; [discriminate|]. intros _.
    destruct (starts_with (p ++ q) "") eqn:E'; [|reflexivity].
    now rewrite (starts_with_prefix _ _ _ E') in E.
  - destruct (starts_with p (String x s)) eqn:E; [discriminate|]. intros H.
    destruct (starts_with (p ++ q) (String x s)) eqn:E'.
    + now rewrite (starts_with_prefix _ _ _ E') in E.
    + exact (IH H).
Qed.

Lemma replace_lit_digits_here (lit repl s rest : string) :
  strip_prefix lit s = Some rest ->
  head_is_digit rest = true ->
  replace_lit_digits lit repl s = repl ++ skip_digits rest.
Proof.
  intros Hs Hd. destruct s; cbn [replace_lit_digits]; now rewrite Hs, Hd.
Qed.

(** The replacement, where the only match is known: in a text that
    does not hold the literal, followed by a character that is none of
    the literal, the literal and digits. *)
Lemma replace_lit_digits_at (lit repl : string) c :
  has_char c lit = false ->
  forall a rest,
    includes a lit = false ->
    head_is_digit rest = true ->
    replace_lit_digits lit repl (a ++ String c (lit ++ rest)) =
    a ++ String c (repl ++ skip_digits rest).
Proof.
  intros Hc a rest Ha Hd.
  assert (Hno : strip_prefix lit (String c (lit ++ rest)) = None).
  { destruct lit as [|y lit]; [destruct a; discriminate|].
    cbn [has_char] in Hc. apply orb_false_iff in Hc. destruct Hc as [Hy _].
    cbn [strip_prefix]. now rewrite Hy. }
  induction a as [|x a IH].
  - cbn [append replace_lit_digits]. rewrite Hno. f_equal.
    apply replace_lit_digits_here; [apply strip_prefix_app | exact Hd].
  - destruct (includes_false_inv _ _ _ Ha) as [Hx Ha'].
    cbn [append replace_lit_digits].
    change (String x (a ++ String c (lit ++ rest)))
      with (String x a ++ String c (lit ++ rest)).
    rewrite (strip_prefix_blocked c lit Hc _ _ Hx).
    now rewrite (IH Ha').
Qed.

Lemma uint_digits (d : Decimal.uint) : all_digits (NilEmpty.string_of_uint d) = true.
Proof. induction d; cbn [NilEmpty.string_of_uint all_digits]; try exact IHd; reflexivity. Qed.

Lemma skip_all_digits (s : string) : all_digits s = true -> skip_digits s = "".
Proof.
  induction s as [|c s IH]; [reflexivity|]. cbn [all_digits skip_digits].
  intros H. apply andb_true_iff in H. destruct H as [-> H]. exact (IH H).
Qed.

(** The decimal form of a page number: digits, and at least one. *)
Lemma dec_page (k : nat) :
  all_digits (dec (Z.of_nat k)) = true /\ head_is_digit (dec (Z.of_nat k)) = true.
Proof.
  unfold dec, NilZero.string_of_int, NilZero.string_of_uint.
  destruct (Z.of_nat k) as [|p|p] eqn:E; [split; reflexivity | | lia].
  cbn [Z.to_int].
  pose proof (uint_digits (Pos.to_uint p)) as Hall.
  destruct (Pos.to_uint p); split; try exact Hall; reflexivity.
Qed.

(** The criteria once the page size is settled (lines 107-110). *)
Lemma sized_criteria base :
  includes base "searchCriteria[currentPage]" = false ->
  exists c1,
    includes c1 "searchCriteria[pageSize]" = true
    /\ includes c1 "searchCriteria[currentPage]" = false
    /\ (c1 = base \/ c1 = base ++ "&searchCriteria[pageSize]=100")
    /\ forall k,
         currentPageSearchCriteria base k =
         c1 ++ String "&" ("searchCriteria[currentPage]=" ++ dec (Z.of_nat k)).
Proof.
  intros Hpage. destruct (includes base "searchCriteria[pageSize]") eqn:Hsize.
  - exists base. repeat split; try assumption; [now left|].
    intros k. unfold currentPageSearchCriteria. rewrite Hsize. cbn [negb].
    now rewrite Hpage.
  - assert (Hpage' : includes (base ++ "&searchCriteria[pageSize]=100")
                       "searchCriteria[currentPage]" = false).
    { apply (includes_blocked "&"); [reflexivity | exact Hpage | reflexivity]. }
    exists (base ++ "&searchCriteria[pageSize]=100"). repeat split.
    + change (base ++ "&searchCriteria[pageSize]=100")
        with (base ++ ("&" ++ "searchCriteria[pageSize]=100")).
      rewrite <- append_assoc. apply includes_at. reflexivity.
    + exact Hpage'.
    + now right.
    + intros k. unfold currentPageSearchCriteria. rewrite Hsize. cbn [negb].
      change (dec pageSize) with "100".
      change ("&searchCriteria[pageSize]=" ++ "100") with "&searchCriteria[pageSize]=100".
      now rewrite Hpage'.
Qed.

(** X6. Criteria that name neither the page size nor the page are sent
    for page [k] with [&searchCriteria[pageSize]=100] and
    [&searchCriteria[currentPage]=k] added at their end, in that order,
    and are otherwise as they were. *)
Theorem currentPageSearchCriteria_of_plain_criteria :
  forall base k,
    includes base "searchCriteria[pageSize]" = false ->
    includes base "searchCriteria[currentPage]" = false ->
    currentPageSearchCriteria base k =
    base ++ "&searchCriteria[pageSize]=100&searchCriteria[currentPage]="
         ++ dec (Z.of_nat k).
Proof.
  intros base k Hsize Hpage.
  destruct (sized_criteria base Hpage) as (c1 & Hs1 & _ & [-> | ->] & Hk).
  - rewrite Hsize in Hs1. discriminate.
  - rewrite Hk, append_assoc. reflexivity.
Qed.

Lemma currentPageSearchCriteria_of_plain_criteria_witness :
  currentPageSearchCriteria "searchCriteria[filter_groups][0][filters][0][field]=status" 3 =
  "searchCriteria[filter_groups][0][filters][0][field]=status"
  ++ "&searchCriteria[pageSize]=100&searchCriteria[currentPage]=" ++ dec (Z.of_nat 3).
Proof.
  exact (currentPageSearchCriteria_of_plain_criteria
           "searchCriteria[filter_groups][0][filters][0][field]=status" 3
           eq_refl eq_refl).
Defined.

(** X7. Paging again: the criteria of page [j] made from the criteria
    already made for page [k] are the criteria of page [j] made from
    the base criteria. The keys the engine added are found, the page
    number is put in place of the old one, and no key is added twice. *)
Theorem currentPageSearchCriteria_again :
  forall base k j,
    includes base "searchCriteria[currentPage]" = false ->
    currentPageSearchCriteria (currentPageSearchCriteria base k) j =
    currentPageSearchCriteria base j.
Proof.
  intros base k j Hpage.
  destruct (sized_criteria base Hpage) as (c1 & Hs1 & Hp1 & _ & Hk).
  rewrite !Hk.
  unfold currentPageSearchCriteria.
  rewrite (includes_more c1 _ _ Hs1). cbn [negb].
  assert (Hin : includes
                  (c1 ++ String "&" ("searchCriteria[currentPage]=" ++ dec (Z.of_nat k)))
                  "searchCriteria[currentPage]" = true).
  { change (c1 ++ String "&" ("searchCriteria[currentPage]=" ++ dec (Z.of_nat k)))
      with (c1 ++ ("&" ++ ("searchCriteria[currentPage]=" ++ dec (Z.of_nat k)))).
    rewrite <- append_assoc. apply includes_at. reflexivity. }
  rewrite Hin. cbn [negb].
  destruct (dec_page k) as [Hall Hhead].
  rewrite (replace_lit_digits_at "searchCriteria[currentPage]=" _ "&" eq_refl c1
             (dec (Z.of_nat k))
             (includes_longer c1 "searchCriteria[currentPage]" "=" Hp1) Hhead).
  now rewrite (skip_all_digits _ Hall), append_assoc, append_nil_r.
Qed.

Lemma currentPageSearchCriteria_again_witness :
  currentPageSearchCriteria (currentPageSearchCriteria "x=1" 7) 8 =
  currentPageSearchCriteria "x=1" 8.
Proof. exact (currentPageSearchCriteria_again "x=1" 7 8 eq_refl). Defined.

Lemma replace_lit_digits_untested (lit repl : string) :
  forall s, test_lit_digits lit s = false -> replace_lit_digits lit repl s = s.
Proof.
  induction s as [|c s IH]; cbn [test_lit_digits replace_lit_digits]; intros H;
    apply orb_false_iff in H; destruct H as [Hhere Hlater].
  - destruct (strip_prefix lit "") as [rest|]; [now rewrite Hhere | reflexivity].
  - destruct (strip_prefix lit (String c s)) as [rest|];
      [rewrite Hhere|]; now rewrite (IH Hlater).
Qed.

(** C4, at the input where the code departs from it. The base criteria
    hold the page-size key and the current-page key, the latter with
    nothing after its [=]. The guard of line 111 finds the key, so no
    page number is appended; the pattern of line 116 wants a digit
    after the [=], so none is substituted: the criteria of every page
    are the base criteria, and the page asked for never advances.
    Against a server that answers that request with 100 items out of
    250, the engine sends the same request three times and returns
    the same 100 items three times over. *)
Theorem currentPage_key_without_number_never_advances :
  (forall k,
      currentPageSearchCriteria
        "searchCriteria[pageSize]=50&searchCriteria[currentPage]=" k =
      "searchCriteria[pageSize]=50&searchCriteria[currentPage]=")
  /\
  (forall fuel,
      fetchAllPages (constant_server (search_result 250 (records 0 100))) (3 + fuel)
        "/orders" "searchCriteria[pageSize]=50&searchCriteria[currentPage]=" tt =
      mkRun (Returned (records 0 100 ++ records 0 100 ++ records 0 100))
            [ "/orders?searchCriteria[pageSize]=50&searchCriteria[currentPage]=";
              "/orders?searchCriteria[pageSize]=50&searchCriteria[currentPage]=";
              "/orders?searchCriteria[pageSize]=50&searchCriteria[currentPage]=" ] tt).
Proof.
  split.
  - intros k. unfold currentPageSearchCriteria.
    change (includes "searchCriteria[pageSize]=50&searchCriteria[currentPage]="
              "searchCriteria[pageSize]") with true.
    cbn [negb].
    change (includes "searchCriteria[pageSize]=50&searchCriteria[currentPage]="
              "searchCriteria[currentPage]") with true.
    cbn [negb].
    apply replace_lit_digits_untested. vm_compute. reflexivity.
  - intros fuel. vm_compute. reflexivity.
Qed.

(** X8. Criteria that hold both keys, but nowhere
    [searchCriteria[currentPage]=] followed by a digit, are sent as they
    are for every page: the page asked for never changes. *)
Theorem currentPageSearchCriteria_without_page_number :
  forall base k,
    includes base "searchCriteria[pageSize]" = true ->
    includes base "searchCriteria[currentPage]" = true ->
    test_lit_digits "searchCriteria[currentPage]=" base = false ->
    currentPageSearchCriteria base k = base.
Proof.
  intros base k Hsize Hpage Hno. unfold currentPageSearchCriteria.
  rewrite Hsize. cbn [negb]. rewrite Hpage. cbn [negb].
  now apply replace_lit_digits_untested.
Qed.

Lemma currentPageSearchCriteria_without_page_number_witness :
  currentPageSearchCriteria
    "searchCriteria[pageSize]=50&searchCriteria[currentPage]=-1" 4 =
  "searchCriteria[pageSize]=50&searchCriteria[currentPage]=-1".
Proof.
  exact (currentPageSearchCriteria_without_page_number
           "searchCriteria[pageSize]=50&searchCriteria[currentPage]=-1" 4
           eq_refl eq_refl eq_refl).
Defined.

End CriteriaMore.

(* ===================================================================== *)
(** * The requests of a run *)
(* ===================================================================== *)

Module RequestFacts.
Import Str StrFacts ApiClient EngineFacts EngineMore CriteriaMore.




Section AnyServer.

Context {World : Type}.
Variable callMagentoApi : string -> World -> api_result * World.


End AnyServer.


End RequestFacts.

(* ===================================================================== *)
(** * Further properties of the encoding *)
(* ===================================================================== *)

Module UriMore.
Import Str StrMore StrFacts Uri Query QueryView EncodingFacts.

Lemma all_chars_app p (a b : string) :
  all_chars p (a ++ b) = (all_chars p a && all_chars p b)%bool.
Proof.
  induction a as [|x a IH]; cbn [append all_chars]; [reflexivity|].
  now rewrite IH, andb_assoc.
Qed.

Lemma encode_byte_safe (c : ascii) : all_chars url_safe (encode_byte c) = true.
Proof. destruct c as [[] [] [] [] [] [] [] []]; reflexivity. Qed.

Lemma all_chars_has_char p (s : string) c :
  all_chars p s = true -> p c = false -> has_char c s = false.
Proof.
  induction s as [|x s IH]; cbn [all_chars has_char]; [reflexivity|].
  intros H Hc. apply andb_true_iff in H. destruct H as [Hx Hs].
  rewrite (IH Hs Hc), orb_false_r.
  destruct (Ascii.eqb_spec x c) as [->|]; [congruence | reflexivity].
Qed.

(** X9. What [encodeURIComponent] writes is made of letters, digits,
    [- _ . ! ~ * ' ( )] and [%] only: no character that delimits or
    structures a query ([& = ? # + / [ ]] or a blank) is ever in it. *)
Theorem encodeURIComponent_url_safe :
  forall s,
    all_chars url_safe (encodeURIComponent s) = true
    /\ has_char "&" (encodeURIComponent s) = false
    /\ has_char "=" (encodeURIComponent s) = false
    /\ has_char "?" (encodeURIComponent s) = false
    /\ has_char "#" (encodeURIComponent s) = false
    /\ has_char "+" (encodeURIComponent s) = false
    /\ has_char "/" (encodeURIComponent s) = false
    /\ has_char "[" (encodeURIComponent s) = false
    /\ has_char "]" (encodeURIComponent s) = false
    /\ has_char " " (encodeURIComponent s) = false.
Proof.
  intros s.
  assert (H : all_chars url_safe (encodeURIComponent s) = true).
  { induction s as [|c s IH]; cbn [encodeURIComponent]; [reflexivity|].
    now rewrite all_chars_app, encode_byte_safe, IH. }
  split; [exact H|].
  repeat split; apply (all_chars_has_char url_safe _ _ H); reflexivity.
Qed.

(** X10. A text of unreserved characters only (letters, digits,
    [- _ . ! ~ * ' ( )]) is written as it is. *)
Theorem encodeURIComponent_unreserved :
  forall s, all_chars unreserved s = true -> encodeURIComponent s = s.
Proof.
  induction s as [|c s IH]; cbn [all_chars encodeURIComponent]; [reflexivity|].
  intros H. apply andb_true_iff in H. destruct H as [Hc Hs].
  unfold encode_byte. rewrite Hc. cbn [append]. now rewrite (IH Hs).
Qed.

Lemma encodeURIComponent_unreserved_witness :
  encodeURIComponent "created_at" = "created_at".
Proof. exact (encodeURIComponent_unreserved "created_at" eq_refl). Defined.

(** X11. Encoding goes through concatenation: a text made of two parts
    is written as the first part encoded followed by the second part
    encoded. *)
Theorem encodeURIComponent_app :
  forall a b,
    encodeURIComponent (a ++ b) = encodeURIComponent a ++ encodeURIComponent b.
Proof.
  induction a as [|c a IH]; intros b; cbn [append encodeURIComponent]; [reflexivity|].
  now rewrite IH, append_assoc.
Qed.

End UriMore.

(* ===================================================================== *)
(** * Reading the queries back *)
(* ===================================================================== *)

Module ReadBack.
Import Str StrMore StrFacts Uri Query QueryView EncodingFacts RoundTrip.
Import DateUtils Attributes.

Lemma pairs_append (q t : string) :
  pairs (q ++ String "&" t) = (pairs q ++ pairs t)%list.
Proof. unfold pairs. now rewrite split_on_append, map_app. Qed.

Lemma pairs_single (k v : string) :
  has_char "=" k = false ->
  has_char "&" k = false ->
  has_char "&" v = false ->
  pairs (k ++ String "=" v) = [(k, v)].
Proof.
  intros Hk Hka Hv. unfold pairs.
  rewrite split_on_last by now apply literal_key_value.
  cbn [List.map]. now rewrite key_value_app.
Qed.

Lemma digit_is_not c d :
  is_digit c = false -> is_digit d = true -> Ascii.eqb d c = false.
Proof. intros Hc Hd. destruct (Ascii.eqb_spec d c) as [->|]; congruence. Qed.

Lemma dec_uint_has_char (d : Decimal.uint) c :
  is_digit c = false -> has_char c (NilEmpty.string_of_uint d) = false.
Proof.
  intros Hc.
  induction d; cbn [NilEmpty.string_of_uint has_char]; try reflexivity;
    rewrite IHd, orb_false_r; apply (digit_is_not c _ Hc); reflexivity.
Qed.

(** The decimal form of a number holds digits and at most a sign. *)
Lemma dec_has_char (n : Z) c :
  is_digit c = false -> Ascii.eqb "-" c = false -> has_char c (dec n) = false.
Proof.
  intros Hc Hminus.
  unfold dec, NilZero.string_of_int, NilZero.string_of_uint.
  destruct (Z.to_int n) as [d|d]; destruct d eqn:E;
    cbn [has_char]; rewrite ?Hminus, ?orb_false_l;
    try (rewrite <- E; apply (dec_uint_has_char _ c Hc));
    try (cbn [has_char]; rewrite (digit_is_not c "0" Hc eq_refl); reflexivity).
Qed.

Lemma filter_key_plain i tail c :
  is_digit c = false -> Ascii.eqb "-" c = false ->
  has_char c "searchCriteria[filter_groups][" = false ->
  has_char c tail = false ->
  has_char c ("searchCriteria[filter_groups][" ++ dec i ++ tail) = false.
Proof.
  intros Hd Hm H1 H2. rewrite !has_char_app.
  now rewrite H1, (dec_has_char i c Hd Hm), H2.
Qed.

(** The pairs a filter adds to the criteria. *)
Lemma append_filter_pairs b field value condition_type :
  has_char "&" field = false ->
  has_char "&" value = false ->
  has_char "&" condition_type = false ->
  pairs (searchCriteria (append_filter b field value condition_type)) =
  (pairs (searchCriteria b)
   ++ filter_pairs (filterIndex b) (field, value, condition_type))%list.
Proof.
  intros Hf Hv Hc. unfold append_filter. cbn [searchCriteria filterIndex].
  rewrite filter_key_head. cbn [append]. rewrite pairs_append. f_equal.
  set (i := filterIndex b).
  match goal with |- pairs ?q = _ =>
    assert (Hform : q =
      (("searchCriteria[filter_groups][" ++ dec i ++ "][filters][0][field]")
       ++ String "=" field)
      ++ String "&"
      ((("searchCriteria[filter_groups][" ++ dec i ++ "][filters][0][value]")
        ++ String "=" value)
      ++ String "&"
      (("searchCriteria[filter_groups][" ++ dec i ++ "][filters][0][condition_type]")
       ++ String "=" condition_type)))
      by (unfold filter_key; flatten_appends; reflexivity)
  end.
  rewrite Hform, !pairs_append.
  rewrite (pairs_single _ field), (pairs_single _ value),
    (pairs_single _ condition_type);
    try assumption; try (apply filter_key_plain; reflexivity).
  reflexivity.
Qed.

Lemma escaped_plain (s : string) : has_char "&" (encodeURIComponent s) = false.
Proof. exact (proj1 (encodeURIComponent_plain s)). Qed.

Lemma wrapped_plain (s : string) :
  has_char "&" ("%25" ++ encodeURIComponent s ++ "%25") = false.
Proof. rewrite !has_char_app, escaped_plain. reflexivity. Qed.

Lemma flag_plain b : has_char "&" (flag b) = false.
Proof. destruct b as [[]|]; reflexivity. Qed.

(** The pairs of the criteria before any filter: the page size and the
    page. *)
Lemma pagination_pairs (n k : Z) :
  pairs ("searchCriteria[pageSize]=" ++ dec n
         ++ "&searchCriteria[currentPage]=" ++ dec k)
  = [("searchCriteria[pageSize]", dec n); ("searchCriteria[currentPage]", dec k)].
Proof.
  assert (Hform :
    "searchCriteria[pageSize]=" ++ dec n ++ "&searchCriteria[currentPage]=" ++ dec k
    = ("searchCriteria[pageSize]" ++ String "=" (dec n))
      ++ String "&" ("searchCriteria[currentPage]" ++ String "=" (dec k)))
    by (flatten_appends; reflexivity).
  rewrite Hform, pairs_append.
  rewrite (pairs_single _ (dec n)), (pairs_single _ (dec k));
    try reflexivity; apply dec_plain.
Qed.

(** X12. The criteria of the attribute search read back as they were
    asked for: the page size and the page first (50 and 1 when not
    given), then three pairs for each filter given, in the order of
    the handler, the filter groups being numbered 0, 1, 2, ... without
    a gap whatever filters are left out. *)
Theorem search_product_attributes_criteria_pairs :
  forall a,
    pairs (search_product_attributes_criteria a) =
    ([("searchCriteria[pageSize]",
       dec (match a.(Attributes.page_size) with Some n => n | None => 50 end));
      ("searchCriteria[currentPage]",
       dec (match a.(Attributes.current_page) with Some n => n | None => 1 end))]
     ++ numbered 0 (filters_given a))%list.
Proof.
  intros [ac fi srch filt ps cp].
  unfold search_product_attributes_criteria, filters_given.
  cbn [attribute_code frontend_input is_searchable is_filterable
       Attributes.page_size Attributes.current_page].
  cbv zeta.
  destruct (given ac), (given fi), srch, filt;
    cbn [numbered app];
    repeat first
      [ rewrite next_index_criteria
      | rewrite append_filter_pairs
          by first [reflexivity | apply escaped_plain | apply wrapped_plain
                   | apply flag_plain] ];
    cbn [searchCriteria filterIndex next_index append_filter];
    rewrite pagination_pairs;
    cbn [app]; rewrite <- ?app_assoc; cbn [app]; reflexivity.
Qed.

(** X13. A date-range filter reads back as two filter groups on the
    same field, the first asking for values from the formatted start
    date on ([gteq]) and the second for values up to the formatted end
    date ([lteq]): six pairs, in this order, and nothing else. *)
Theorem buildDateRangeFilter_pairs :
  forall field startDate endDate,
    has_char "&" field = false ->
    pairs (buildDateRangeFilter field startDate endDate) =
    [ ("searchCriteria[filter_groups][0][filters][0][field]", field);
      ("searchCriteria[filter_groups][0][filters][0][value]",
       encodeURIComponent (formatDateForMagento startDate));
      ("searchCriteria[filter_groups][0][filters][0][condition_type]", "gteq");
      ("searchCriteria[filter_groups][1][filters][0][field]", field);
      ("searchCriteria[filter_groups][1][filters][0][value]",
       encodeURIComponent (formatDateForMagento endDate));
      ("searchCriteria[filter_groups][1][filters][0][condition_type]", "lteq") ].
Proof.
  intros field startDate endDate Hfield.
  assert (Hform :
    buildDateRangeFilter field startDate endDate =
    ("searchCriteria[filter_groups][0][filters][0][field]" ++ String "=" field)
    ++ String "&"
    (("searchCriteria[filter_groups][0][filters][0][value]"
      ++ String "=" (encodeURIComponent (formatDateForMagento startDate)))
    ++ String "&"
    (("searchCriteria[filter_groups][0][filters][0][condition_type]" ++ String "=" "gteq")
    ++ String "&"
    (("searchCriteria[filter_groups][1][filters][0][field]" ++ String "=" field)
    ++ String "&"
    (("searchCriteria[filter_groups][1][filters][0][value]"
      ++ String "=" (encodeURIComponent (formatDateForMagento endDate)))
    ++ String "&"
    ("searchCriteria[filter_groups][1][filters][0][condition_type]"
     ++ String "=" "lteq")))))).
  { unfold buildDateRangeFilter. cbv zeta. cbn [join].
    flatten_appends. reflexivity. }
  rewrite Hform, !pairs_append.
  rewrite !(pairs_single _ field), (pairs_single _ "gteq"), (pairs_single _ "lteq"),
    !(pairs_single _ (encodeURIComponent _));
    try reflexivity; try assumption; try apply escaped_plain.
Qed.

Lemma buildDateRangeFilter_pairs_witness :
  pairs (buildDateRangeFilter "created_at"
           (mkDate 2024 1 5 0 0 0 0) (mkDate 2024 12 31 23 59 59 999)) =
  [ ("searchCriteria[filter_groups][0][filters][0][field]", "created_at");
    ("searchCriteria[filter_groups][0][filters][0][value]",
     encodeURIComponent (formatDateForMagento (mkDate 2024 1 5 0 0 0 0)));
    ("searchCriteria[filter_groups][0][filters][0][condition_type]", "gteq");
    ("searchCriteria[filter_groups][1][filters][0][field]", "created_at");
    ("searchCriteria[filter_groups][1][filters][0][value]",
     encodeURIComponent (formatDateForMagento (mkDate 2024 12 31 23 59 59 999)));
    ("searchCriteria[filter_groups][1][filters][0][condition_type]", "lteq") ].
Proof.
  exact (buildDateRangeFilter_pairs "created_at"
           (mkDate 2024 1 5 0 0 0 0) (mkDate 2024 12 31 23 59 59 999) eq_refl).
Defined.

End ReadBack.

(* ===================================================================== *)
(** * The analytics tools and the fetch engine *)
(* ===================================================================== *)

Module AnalyticsFacts.
Import Str StrMore StrFacts Uri Query QueryView EncodingFacts RoundTrip ReadBack.
Import DateUtils Attributes ApiClient Analytics CriteriaMore EngineFacts.

(** A text does not hold a text of which it does not hold a part. *)
Lemma includes_part (s pre sub post : string) :
  includes s sub = false -> includes s (pre ++ sub ++ post) = false.
Proof.
  intros H. destruct (includes s (pre ++ sub ++ post)) eqn:E; [|reflexivity].
  destruct (includes_occurrence _ _ E) as (a & b & ->).
  rewrite <- H. symmetry.
  replace (a ++ (pre ++ sub ++ post) ++ b) with ((a ++ pre) ++ (sub ++ post ++ b))
    by (now rewrite !append_assoc).
  apply includes_at, starts_with_app.
Qed.

(** A match that begins with [[] does not begin in an escaped text. *)
Lemma includes_after_escaped (x rest sub' : string) :
  has_char "[" x = false ->
  includes (x ++ rest) (String "[" sub') = includes rest (String "[" sub').
Proof.
  intros Hx. induction x as [|c x IH]; [reflexivity|].
  cbn [has_char] in Hx. apply orb_false_iff in Hx. destruct Hx as [Hc Hx].
  cbn [append includes]. unfold starts_with at 1. cbn [strip_prefix].
  rewrite Ascii.eqb_sym, Hc. exact (IH Hx).
Qed.

Lemma escaped_no_bracket (s : string) : has_char "[" (encodeURIComponent s) = false.
Proof.
  induction s as [|c s IH]; cbn [encodeURIComponent]; [reflexivity|].
  rewrite has_char_app, IH, orb_false_r.
  destruct c as [[] [] [] [] [] [] [] []]; reflexivity.
Qed.

(** Neither the order criteria nor the customer order criteria hold a
    key that begins like the two pagination keys. *)
Lemma order_search_criteria_no_pagination startDate endDate status sub' :
  sub' = "p" \/ sub' = "cu" ->
  includes (order_search_criteria startDate endDate status) (String "[" sub') = false.
Proof.
  intros Hsub. unfold order_search_criteria, buildDateRangeFilter.
  cbv zeta. cbn [join].
  destruct (given status); flatten_appends;
    destruct Hsub as [-> | ->];
    repeat first
      [ rewrite (includes_after_escaped (encodeURIComponent _))
          by apply escaped_no_bracket
      | progress cbn [includes starts_with strip_prefix Ascii.eqb Bool.eqb] ];
    reflexivity.
Qed.

Lemma orderSearchCriteria_no_pagination email sub' :
  sub' = "p" \/ sub' = "cu" ->
  includes (orderSearchCriteria email) (String "[" sub') = false.
Proof.
  intros Hsub. unfold orderSearchCriteria. flatten_appends.
  destruct Hsub as [-> | ->];
    repeat first
      [ rewrite (includes_after_escaped (encodeURIComponent _))
          by apply escaped_no_bracket
      | progress cbn [includes starts_with strip_prefix Ascii.eqb Bool.eqb] ];
    reflexivity.
Qed.

(** Criteria that hold neither [[p] nor [[cu] are sent for each page
    with the page size 100 and the page added at their end. *)
Lemma paged_when_no_pagination base k :
  includes base "[p" = false ->
  includes base "[cu" = false ->
  currentPageSearchCriteria base k =
  base ++ "&searchCriteria[pageSize]=100&searchCriteria[currentPage]="
       ++ dec (Z.of_nat k).
Proof.
  intros Hp Hcu.
  pose proof (includes_part base "searchCriteria" "[p" "ageSize]" Hp) as Hsize.
  pose proof (includes_part base "searchCriteria" "[cu" "rrentPage]" Hcu) as Hpage.
  change ("searchCriteria" ++ "[p" ++ "ageSize]") with "searchCriteria[pageSize]" in Hsize.
  change ("searchCriteria" ++ "[cu" ++ "rrentPage]")
    with "searchCriteria[currentPage]" in Hpage.
  destruct (sized_criteria base Hpage) as (c1 & Hs1 & _ & [-> | ->] & Hk).
  - rewrite Hsize in Hs1. discriminate.
  - rewrite Hk, append_assoc. reflexivity.
Qed.

(** X14. For every date range and status, the analytics tools fetch
    the orders in pages of 100: the criteria sent for page [k] are the
    date and status filters followed by
    [&searchCriteria[pageSize]=100&searchCriteria[currentPage]=k]. The
    same holds for the orders of a customer, whatever the email. *)
Theorem analytics_criteria_are_paged_by_100 :
  forall k,
    (forall startDate endDate status,
        currentPageSearchCriteria (order_search_criteria startDate endDate status) k =
        order_search_criteria startDate endDate status
        ++ "&searchCriteria[pageSize]=100&searchCriteria[currentPage]="
        ++ dec (Z.of_nat k))
    /\
    (forall email,
        currentPageSearchCriteria (orderSearchCriteria email) k =
        orderSearchCriteria email
        ++ "&searchCriteria[pageSize]=100&searchCriteria[currentPage]="
        ++ dec (Z.of_nat k)).
Proof.
  intros k. split.
  - intros startDate endDate status. apply paged_when_no_pagination;
      apply order_search_criteria_no_pagination; [now left | now right].
  - intros email. apply paged_when_no_pagination;
      apply orderSearchCriteria_no_pagination; [now left | now right].
Qed.

Section AllOrders.

Context {World : Type}.
Variable callMagentoApi : string -> World -> api_result * World.
Variables startDate endDate : Date.
Variable status : option string.
Variable orders : list Js.jsval.

(** The server holds the orders of the date range and status, and
    serves them 100 at a time at the requests the tool makes. *)
Variable ready : nat -> World -> Prop.
Hypothesis serves :
  forall k w,
    ready k w ->
    exists w',
      callMagentoApi
        ("/orders?" ++ order_search_criteria startDate endDate status
         ++ "&searchCriteria[pageSize]=100&searchCriteria[currentPage]="
         ++ dec (Z.of_nat k)) w =
      (Resolved (search_result (Z.of_nat (List.length orders)) (page_of orders 100 k)), w')
      /\ ready (S k) w'.

(** X15. The analytics tools see every order: against a server that
    serves the orders of the range 100 at a time, the fetch they make
    returns all the orders, in the order of the server. *)
Theorem analytics_fetch_returns_every_order :
  forall fuel w,
    ready 1%nat w ->
    (List.length orders < fuel * 100)%nat ->
    result (fetchAllPages callMagentoApi fuel "/orders"
              (order_search_criteria startDate endDate status) w)
    = Returned orders.
Proof.
  intros fuel w Hready Hfuel.
  apply (fetchAllPages_reads_all_from_100 callMagentoApi "/orders"
           (order_search_criteria startDate endDate status) orders 100 ready);
    [|lia | exact Hready | exact Hfuel].
  intros k w0 Hk. destruct (serves k w0 Hk) as (w' & Hcall & Hnext).
  exists w'. split; [|exact Hnext].
  unfold request_url.
  rewrite (paged_when_no_pagination _ k
             (order_search_criteria_no_pagination _ _ _ "p" (or_introl eq_refl))
             (order_search_criteria_no_pagination _ _ _ "cu" (or_intror eq_refl))).
  rewrite <- Hcall. f_equal.
Qed.

End AllOrders.

Lemma analytics_fetch_returns_every_order_witness :
  result (fetchAllPages (sequential_server (records 0 250) 100) 3 "/orders"
            (order_search_criteria (mkDate 2024 1 1 0 0 0 0)
               (mkDate 2024 1 31 23 59 59 999) (Some "complete")) 0%nat)
  = Returned (records 0 250).
Proof.
  apply (analytics_fetch_returns_every_order
           (sequential_server (records 0 250) 100)
           (mkDate 2024 1 1 0 0 0 0) (mkDate 2024 1 31 23 59 59 999) (Some "complete")
           (records 0 250) (fun k w => k = S w)).
  - intros k w ->. exists (S w). split; reflexivity.
  - reflexivity.
  - vm_compute. lia.
Defined.

End AnalyticsFacts.

(* ===================================================================== *)
(** * Properties of the country names *)
(* ===================================================================== *)

Module CountryFacts.
Import StrMore Text Countries.

Lemma map_chars_twice f g (s : string) :
  map_chars f (map_chars g s) = map_chars (fun c => f (g c)) s.
Proof. induction s as [|c s IH]; cbn [map_chars]; [reflexivity | now rewrite IH]. Qed.

Lemma map_chars_ext f g (s : string) :
  (forall c, f c = g c) -> map_chars f s = map_chars g s.
Proof.
  intros H. induction s as [|c s IH]; cbn [map_chars]; [reflexivity|].
  now rewrite H, IH.
Qed.

Lemma lower_upper_char c : lower_char (upper_char c) = lower_char c.
Proof. destruct c as [[] [] [] [] [] [] [] []]; reflexivity. Qed.

Lemma lower_lower_char c : lower_char (lower_char c) = lower_char c.
Proof. destruct c as [[] [] [] [] [] [] [] []]; reflexivity. Qed.

Lemma upper_lower_char c : upper_char (lower_char c) = upper_char c.
Proof. destruct c as [[] [] [] [] [] [] [] []]; reflexivity. Qed.

Lemma space_lower_char c : Js.is_space (lower_char c) = Js.is_space c.
Proof. destruct c as [[] [] [] [] [] [] [] []]; reflexivity. Qed.

Lemma space_upper_char c : Js.is_space (upper_char c) = Js.is_space c.
Proof. destruct c as [[] [] [] [] [] [] [] []]; reflexivity. Qed.

Lemma toLowerCase_toUpperCase s : toLowerCase (toUpperCase s) = toLowerCase s.
Proof.
  unfold toLowerCase, toUpperCase. rewrite map_chars_twice.
  apply map_chars_ext, lower_upper_char.
Qed.

Lemma toLowerCase_twice s : toLowerCase (toLowerCase s) = toLowerCase s.
Proof.
  unfold toLowerCase. rewrite map_chars_twice.
  apply map_chars_ext, lower_lower_char.
Qed.

(** Changing the case of letters moves no blank. *)
Section CaseAndBlanks.

Variable f : ascii -> ascii.
Hypothesis keeps_blanks : forall c, Js.is_space (f c) = Js.is_space c.

Lemma trim_left_map s : Js.trim_left (map_chars f s) = map_chars f (Js.trim_left s).
Proof.
  induction s as [|c s IH]; [reflexivity|].
  cbn [map_chars Js.trim_left]. rewrite keeps_blanks.
  destruct (Js.is_space c); [exact IH | reflexivity].
Qed.

Lemma trim_right_map s : trim_right (map_chars f s) = map_chars f (trim_right s).
Proof.
  induction s as [|c s IH]; [reflexivity|].
  cbn [map_chars trim_right]. rewrite IH, keeps_blanks.
  destruct (trim_right s); cbn [map_chars]; [|reflexivity].
  destruct (Js.is_space c); reflexivity.
Qed.

Lemma trim_map s : trim (map_chars f s) = map_chars f (trim s).
Proof. unfold trim. now rewrite trim_left_map, trim_right_map. Qed.

End CaseAndBlanks.

Lemma trim_right_twice s : trim_right (trim_right s) = trim_right s.
Proof.
  induction s as [|c s IH]; [reflexivity|].
  cbn [trim_right]. destruct (trim_right s) as [|d r] eqn:E.
  - destruct (Js.is_space c) eqn:Hc; [reflexivity|].
    cbn [trim_right]. now rewrite Hc.
  - remember (String d r) as t eqn:Et.
    cbn [trim_right]. rewrite IH. now rewrite Et.
Qed.

Lemma trim_left_head s : head_is_blank (Js.trim_left s) = false.
Proof.
  induction s as [|c s IH]; [reflexivity|]. cbn [Js.trim_left].
  destruct (Js.is_space c) eqn:E; [exact IH | cbn; exact E].
Qed.

Lemma trim_left_fixed s : head_is_blank s = false -> Js.trim_left s = s.
Proof. destruct s as [|c s]; [reflexivity|]. cbn. now intros ->. Qed.

Lemma trim_right_head s : head_is_blank s = false -> head_is_blank (trim_right s) = false.
Proof.
  destruct s as [|c s]; [reflexivity|]. cbn [head_is_blank trim_right]. intros Hc.
  destruct (trim_right s); [rewrite Hc|]; cbn; exact Hc.
Qed.

Lemma trim_twice s : trim (trim s) = trim s.
Proof.
  unfold trim.
  rewrite (trim_left_fixed (trim_right (Js.trim_left s)))
    by apply trim_right_head, trim_left_head.
  apply trim_right_twice.
Qed.

(** The text the map is looked up with is left as it is by
    normalising it again. *)
Lemma normalised_twice s :
  toLowerCase (trim (toLowerCase (trim s))) = toLowerCase (trim s).
Proof.
  unfold toLowerCase at 2. rewrite (trim_map _ space_lower_char).
  fold (toLowerCase (trim (trim s))). now rewrite trim_twice, toLowerCase_twice.
Qed.

Lemma normalised_lower s :
  toLowerCase (trim (toLowerCase s)) = toLowerCase (trim s).
Proof.
  unfold toLowerCase at 2. rewrite (trim_map _ space_lower_char).
  fold (toLowerCase (trim s)). apply toLowerCase_twice.
Qed.

Lemma normalised_upper s :
  toLowerCase (trim (toUpperCase s)) = toLowerCase (trim s).
Proof.
  unfold toUpperCase. rewrite (trim_map _ space_upper_char).
  fold (toUpperCase (trim s)). apply toLowerCase_toUpperCase.
Qed.

Lemma own_in key (map : list (string * string)) v :
  own key map = Some v -> In (key, v) map.
Proof.
  induction map as [|[k x] map IH]; cbn [own]; [discriminate|].
  destruct (String.eqb_spec k key) as [->|].
  - intros [= ->]. now left.
  - intros H. right. exact (IH H).
Qed.

(** Every code of the map is read as itself. *)
Lemma codes_are_fixed key code :
  own key countryMap = Some code -> normalizeCountry code = [Code code].
Proof.
  intros H. apply own_in in H.
  assert (Hall : forallb (fun kv : string * string =>
                            match normalizeCountry (snd kv) with
                            | [Code c] => String.eqb c (snd kv)
                            | _ => false
                            end) countryMap = true) by (vm_compute; reflexivity).
  rewrite forallb_forall in Hall. specialize (Hall _ H). cbn [snd] in Hall.
  destruct (normalizeCountry code) as [|[c|] [|]]; try discriminate.
  apply String.eqb_eq in Hall. now subst.
Qed.

(** X16. A country that has been normalised is left as it is by
    normalising it again: the code returned for a name is returned for
    that code too. *)
Theorem normalizeCountry_fixes_its_codes :
  forall country code,
    is_ascii country = true ->
    normalizeCountry country = [Code code] ->
    normalizeCountry code = [Code code].
Proof.
  intros country code _ H. unfold normalizeCountry in H. cbv zeta in H.
  destruct (own (toLowerCase (trim country)) countryMap) as [c|] eqn:Hown.
  - injection H as ->. exact (codes_are_fixed _ _ Hown).
  - destruct (inherited (toLowerCase (trim country))) eqn:Hin; [discriminate|].
    injection H as <-. unfold normalizeCountry. cbv zeta.
    rewrite normalised_upper, normalised_twice, Hown, Hin. reflexivity.
Qed.

Lemma normalizeCountry_fixes_its_codes_witness :
  normalizeCountry "NL" = [Code "NL"] /\ normalizeCountry "XX" = [Code "XX"].
Proof.
  split.
  - exact (normalizeCountry_fixes_its_codes " The Netherlands " "NL" eq_refl eq_refl).
  - exact (normalizeCountry_fixes_its_codes "xx" "XX" eq_refl eq_refl).
Defined.

Lemma trim_right_blank_end s : trim_right (s ++ " ") = trim_right s.
Proof.
  induction s as [|c s IH]; [reflexivity|].
  cbn [append trim_right]. now rewrite IH.
Qed.

Lemma trim_blank_end s : trim (s ++ " ") = trim s.
Proof.
  unfold trim. induction s as [|c s IH]; [reflexivity|].
  cbn [append Js.trim_left]. destruct (Js.is_space c); [exact IH|].
  change (String c (s ++ " ")) with (String c s ++ " ").
  apply trim_right_blank_end.
Qed.

(** X17. Neither the case of the letters nor blanks around the text
    count: a name in capitals, in small letters, or with a blank before
    and after it is normalised as the name itself. *)
Theorem normalizeCountry_ignores_case_and_blanks :
  forall country,
    is_ascii country = true ->
    normalizeCountry (toUpperCase country) = normalizeCountry country
    /\ normalizeCountry (toLowerCase country) = normalizeCountry country
    /\ normalizeCountry (" " ++ country ++ " ") = normalizeCountry country.
Proof.
  intros country _. unfold normalizeCountry. cbv zeta. repeat split.
  - now rewrite normalised_upper.
  - now rewrite normalised_lower.
  - change (" " ++ country ++ " ") with (String " " (country ++ " ")).
    change (trim (String " " (country ++ " "))) with (trim (country ++ " ")).
    now rewrite trim_blank_end.
Qed.

Lemma normalizeCountry_ignores_case_and_blanks_witness :
  normalizeCountry (toUpperCase "Holland") = normalizeCountry "Holland"
  /\ normalizeCountry (toLowerCase "Holland") = normalizeCountry "Holland"
  /\ normalizeCountry (" " ++ "Holland" ++ " ") = normalizeCountry "Holland".
Proof. exact (normalizeCountry_ignores_case_and_blanks "Holland" eq_refl). Defined.

Lemma upper_char_not_lower c : is_lower (upper_char c) = false.
Proof. destruct c as [[] [] [] [] [] [] [] []]; reflexivity. Qed.

Lemma toUpperCase_has_no_small_letter s :
  all_chars (fun c => negb (is_lower c)) (toUpperCase s) = true.
Proof.
  induction s as [|c s IH]; [reflexivity|].
  cbn [toUpperCase map_chars all_chars]. rewrite upper_char_not_lower.
  exact IH.
Qed.

(** X18. The array returned has one element. For the two texts that
    name a member every object inherits ([constructor] and [__proto__],
    in any case of the letters and with blanks around), the lookup in
    the map finds that member, and the element is the member, not a
    string. For every other text the element is a string without a
    small letter: the code of the map, or the text in capitals. *)
Theorem normalizeCountry_shape :
  forall country,
    is_ascii country = true ->
    (toLowerCase (trim country) = "constructor"
     \/ toLowerCase (trim country) = "__proto__" ->
     normalizeCountry country = [Member (toLowerCase (trim country))])
    /\
    (toLowerCase (trim country) <> "constructor" ->
     toLowerCase (trim country) <> "__proto__" ->
     exists code,
       normalizeCountry country = [Code code]
       /\ all_chars (fun c => negb (is_lower c)) code = true
       /\ (own (toLowerCase (trim country)) countryMap = Some code
           \/ own (toLowerCase (trim country)) countryMap = None
              /\ code = toUpperCase (toLowerCase (trim country)))).
Proof.
  intros country _. unfold normalizeCountry. cbv zeta. split.
  - intros [H|H]; rewrite H; reflexivity.
  - intros Hc Hp.
    destruct (own (toLowerCase (trim country)) countryMap) as [c|] eqn:Hown.
    + exists c. split; [reflexivity|]. split; [|now left].
      apply own_in in Hown.
      assert (Hall : forallb (fun kv : string * string =>
                                all_chars (fun c => negb (is_lower c)) (snd kv))
                       countryMap = true) by (vm_compute; reflexivity).
      rewrite forallb_forall in Hall. exact (Hall _ Hown).
    + assert (Hin : inherited (toLowerCase (trim country)) = false).
      { unfold inherited. apply orb_false_iff.
        split; apply String.eqb_neq; assumption. }
      rewrite Hin. exists (toUpperCase (toLowerCase (trim country))).
      split; [reflexivity|]. split; [apply toUpperCase_has_no_small_letter|].
      right. now split.
Qed.

Lemma normalizeCountry_shape_witness :
  normalizeCountry " Constructor" = [Member "constructor"]
  /\ exists code,
       normalizeCountry "Luxembourg" = [Code code]
       /\ all_chars (fun c => negb (is_lower c)) code = true
       /\ (own (toLowerCase (trim "Luxembourg")) countryMap = Some code
           \/ own (toLowerCase (trim "Luxembourg")) countryMap = None
              /\ code = toUpperCase (toLowerCase (trim "Luxembourg"))).
Proof.
  split.
  - apply (proj1 (normalizeCountry_shape " Constructor" eq_refl)).
    left. reflexivity.
  - apply (proj2 (normalizeCountry_shape "Luxembourg" eq_refl)); discriminate.
Defined.

End CountryFacts.

(* ===================================================================== *)
(** * Properties of the formatters *)
(* ===================================================================== *)

Module FormatterFacts.
Import Js Formatters.
Import ApiClient (elems).

Lemma get_prop_readable v k : get_prop v k = None <-> readable v = false.
Proof. destruct v; cbn; split; intros H; congruence. Qed.

Lemma get_prop_prop v k : readable v = true -> get_prop v k = Some (prop v k).
Proof. unfold prop. destruct v; cbn; intros H; congruence. Qed.

Lemma prop_of_object fields k : prop (JObj fields) k = own_prop fields k.
Proof. reflexivity. Qed.

(** What a summary reads back as. *)
Lemma summary_fields a b c d e f k :
  own_prop [("id", a); ("sku", b); ("name", c); ("price", d);
            ("status", e); ("type_id", f)] k =
  if String.eqb k "id" then a
  else if String.eqb k "sku" then b
  else if String.eqb k "name" then c
  else if String.eqb k "price" then d
  else if String.eqb k "status" then e
  else if String.eqb k "type_id" then f
  else JUndefined.
Proof.
  cbn [own_prop].
  destruct (String.eqb_spec k "id") as [->|H1].
  { destruct a; reflexivity. }
  destruct (String.eqb_spec k "sku") as [->|H2].
  { destruct b; reflexivity. }
  destruct (String.eqb_spec k "name") as [->|H3].
  { destruct c; reflexivity. }
  destruct (String.eqb_spec k "price") as [->|H4].
  { destruct d; reflexivity. }
  destruct (String.eqb_spec k "status") as [->|H5].
  { destruct e; reflexivity. }
  destruct (String.eqb_spec k "type_id") as [->|H6].
  { destruct f; reflexivity. }
  rewrite !(proj2 (String.eqb_neq _ _)) by (intros E; symmetry in E; contradiction).
  reflexivity.
Qed.

Lemma summary_of_readable item :
  readable item = true ->
  summary item =
  Some (JObj [("id", prop item "id"); ("sku", prop item "sku");
              ("name", prop item "name"); ("price", prop item "price");
              ("status", prop item "status"); ("type_id", prop item "type_id")]).
Proof. intros H. unfold summary. now rewrite !(get_prop_prop _ _ H). Qed.

Lemma summary_of_unreadable item : readable item = false -> summary item = None.
Proof.
  intros H. unfold summary.
  now rewrite (proj2 (get_prop_readable item "id") H).
Qed.

(** A summary of a summary is that summary. *)
Lemma summary_twice item out : summary item = Some out -> summary out = Some out.
Proof.
  destruct (readable item) eqn:Hr.
  - rewrite (summary_of_readable _ Hr). intros [= <-].
    rewrite summary_of_readable by reflexivity.
    rewrite !prop_of_object, !summary_fields. reflexivity.
  - rewrite (summary_of_unreadable _ Hr). discriminate.
Qed.

Lemma map_opt_twice l l' :
  map_opt summary l = Some l' -> map_opt summary l' = Some l'.
Proof.
  revert l'. induction l as [|x l IH]; intros l'; cbn [map_opt].
  - intros [= <-]. reflexivity.
  - destruct (summary x) as [y|] eqn:Hx; [|discriminate].
    destruct (map_opt summary l) as [t|]; [|discriminate].
    intros [= <-]. cbn [map_opt].
    now rewrite (summary_twice _ _ Hx), (IH t eq_refl).
Qed.

(** X19. Formatting search results that are formatted already changes
    nothing: what [formatSearchResults] returns, it returns again when
    given it (the summaries as well as the text that says there are no
    products). *)
Theorem formatSearchResults_twice :
  forall results formatted,
    formatSearchResults results = Some formatted ->
    formatSearchResults formatted = Some formatted.
Proof.
  intros results formatted. unfold formatSearchResults at 1.
  destruct (truthy results); cbn [negb]; [|intros [= <-]; reflexivity].
  destruct (get_prop results "items") as [items|]; [|discriminate].
  destruct (get_prop results "total_count") as [tc|]; [|discriminate].
  destruct (negb (truthy items) || negb (isArray items))%bool;
    [intros [= <-]; reflexivity|].
  destruct (map_opt summary (elems items)) as [l'|] eqn:Hmap; [|discriminate].
  cbn [option_map]. intros [= <-].
  unfold formatSearchResults. cbn [truthy negb get_prop].
  assert (Hitems : own_prop [("total_count", tc); ("items", JArr l')] "items" = JArr l')
    by reflexivity.
  assert (Htc : own_prop [("total_count", tc); ("items", JArr l')] "total_count" = tc)
    by reflexivity.
  rewrite Hitems, Htc. cbn [truthy isArray negb orb elems].
  now rewrite (map_opt_twice _ _ Hmap).
Qed.

Lemma formatSearchResults_twice_witness :
  formatSearchResults
    (JObj [("total_count", JNum 1);
           ("items", JArr [JObj [("id", JNum 7); ("sku", JStr "A");
                                 ("name", JUndefined); ("price", JUndefined);
                                 ("status", JUndefined); ("type_id", JUndefined)]])])
  = Some (JObj [("total_count", JNum 1);
                ("items", JArr [JObj [("id", JNum 7); ("sku", JStr "A");
                                      ("name", JUndefined); ("price", JUndefined);
                                      ("status", JUndefined); ("type_id", JUndefined)]])]).
Proof.
  apply (formatSearchResults_twice
           (JObj [("items", JArr [JObj [("sku", JStr "A"); ("id", JNum 7);
                                        ("qty", JNum 3)]]);
                  ("total_count", JNum 1)])).
  reflexivity.
Defined.

Lemma summary_summarises item :
  readable item = true ->
  exists out, summary item = Some out /\ summarises item out.
Proof.
  intros Hr. rewrite (summary_of_readable _ Hr). eexists. split; [reflexivity|].
  eexists. split; [reflexivity|].
  intros k. rewrite summary_fields.
  unfold is_summary_key, summary_keys. cbn [existsb].
  destruct (String.eqb_spec k "id") as [->|]; [reflexivity|].
  destruct (String.eqb_spec k "sku") as [->|]; [reflexivity|].
  destruct (String.eqb_spec k "name") as [->|]; [reflexivity|].
  destruct (String.eqb_spec k "price") as [->|]; [reflexivity|].
  destruct (String.eqb_spec k "status") as [->|]; [reflexivity|].
  destruct (String.eqb_spec k "type_id") as [->|]; reflexivity.
Qed.

Lemma map_opt_summarises l :
  forallb readable l = true ->
  exists l', map_opt summary l = Some l' /\ Forall2 summarises l l'.
Proof.
  induction l as [|x l IH]; cbn [forallb map_opt]; intros H.
  - exists []. split; [reflexivity | constructor].
  - apply andb_true_iff in H. destruct H as [Hx Hl].
    destruct (summary_summarises x Hx) as (y & -> & Hy).
    destruct (IH Hl) as (l' & -> & Hl').
    exists (y :: l'). split; [reflexivity | now constructor].
Qed.

Lemma map_opt_fails l : forallb readable l = false -> map_opt summary l = None.
Proof.
  induction l as [|x l IH]; cbn [forallb map_opt]; [discriminate|].
  destruct (readable x) eqn:Hx; cbn [andb]; intros H.
  - destruct (summary x); [|reflexivity]. now rewrite (IH H).
  - now rewrite (summary_of_unreadable _ Hx).
Qed.

Lemma results_with_items results l :
  get_prop results "items" = Some (JArr l) ->
  formatSearchResults results =
  option_map (fun formatted => JObj [("total_count", prop results "total_count");
                                     ("items", JArr formatted)])
             (map_opt summary l).
Proof.
  intros H. unfold formatSearchResults, prop.
  destruct results; try (cbn in H; discriminate H); cbn [truthy negb].
  cbn [get_prop] in *. injection H as H. rewrite H. reflexivity.
Qed.

(** X20. The search results are formatted item by item: when [items]
    is an array without [null] in it, the result holds the total count
    as it was and as many items, in the same order, each an object
    whose own properties are the six fields [id sku name price status
    type_id] as they read on the item, and no other. *)
Theorem formatSearchResults_summaries :
  forall results l,
    get_prop results "items" = Some (JArr l) ->
    forallb readable l = true ->
    exists l',
      formatSearchResults results =
      Some (JObj [("total_count", prop results "total_count"); ("items", JArr l')])
      /\ Forall2 summarises l l'.
Proof.
  intros results l Hitems Hl. rewrite (results_with_items _ _ Hitems).
  destruct (map_opt_summarises l Hl) as (l' & -> & Hl').
  exists l'. split; [reflexivity | exact Hl'].
Qed.

Lemma formatSearchResults_summaries_witness :
  exists l',
    formatSearchResults
      (JObj [("items", JArr [JObj [("sku", JStr "A"); ("qty", JNum 3)]; JStr "x"]);
             ("total_count", JNum 2)]) =
    Some (JObj [("total_count",
                 prop (JObj [("items", JArr [JObj [("sku", JStr "A"); ("qty", JNum 3)];
                                             JStr "x"]);
                             ("total_count", JNum 2)]) "total_count");
                ("items", JArr l')])
    /\ Forall2 summarises [JObj [("sku", JStr "A"); ("qty", JNum 3)]; JStr "x"] l'.
Proof.
  exact (formatSearchResults_summaries
           (JObj [("items", JArr [JObj [("sku", JStr "A"); ("qty", JNum 3)]; JStr "x"]);
                  ("total_count", JNum 2)])
           [JObj [("sku", JStr "A"); ("qty", JNum 3)]; JStr "x"] eq_refl eq_refl).
Defined.

(** X21. The one way [formatSearchResults] fails: given an array of
    items, it throws exactly when one of them is [null] (or
    [undefined]); an empty array is not a failure and gives a result
    with no item, not the text that says there are no products. *)
Theorem formatSearchResults_throws_on_null_item :
  forall results l,
    get_prop results "items" = Some (JArr l) ->
    (formatSearchResults results = None <-> forallb readable l = false)
    /\ (l = [] ->
        formatSearchResults results =
        Some (JObj [("total_count", prop results "total_count"); ("items", JArr [])])).
Proof.
  intros results l Hitems. rewrite (results_with_items _ _ Hitems). split.
  - split.
    + destruct (forallb readable l) eqn:Hl; [|reflexivity].
      destruct (map_opt_summarises l Hl) as (l' & -> & _). discriminate.
    + intros Hl. now rewrite (map_opt_fails _ Hl).
  - intros ->. reflexivity.
Qed.

Lemma formatSearchResults_throws_on_null_item_witness :
  formatSearchResults (JObj [("items", JArr [JObj []; JNull])]) = None.
Proof.
  apply (proj1 (formatSearchResults_throws_on_null_item
                  (JObj [("items", JArr [JObj []; JNull])]) [JObj []; JNull] eq_refl)).
  reflexivity.
Defined.

Lemma own_prop_absent fields c :
  ~ In c (List.map fst fields) -> own_prop fields c = JUndefined.
Proof.
  induction fields as [|[k v] fields IH]; cbn [List.map fst In own_prop]; [reflexivity|].
  intros H. rewrite IH by tauto.
  destruct (String.eqb_spec k c) as [->|]; [tauto | reflexivity].
Qed.

Lemma set_prop_keys fields k v c :
  In c (List.map fst (set_prop fields k v)) -> c = k \/ In c (List.map fst fields).
Proof.
  induction fields as [|[k' v'] fields IH]; cbn [set_prop List.map fst In].
  - intros [<-|[]]. now left.
  - destruct (String.eqb_spec k' k) as [->|]; cbn [List.map fst In]; intros [H|H];
      try tauto.
    all: try (destruct (IH H); tauto).
Qed.

Lemma set_prop_nodup fields k v :
  NoDup (List.map fst fields) -> NoDup (List.map fst (set_prop fields k v)).
Proof.
  induction fields as [|[k' v'] fields IH]; cbn [set_prop List.map fst]; intros H.
  - repeat constructor. intros [].
  - inversion H as [|? ? Hnot Hrest]; subst.
    destruct (String.eqb_spec k' k) as [->|Hne]; cbn [List.map fst].
    + now constructor.
    + constructor; [|now apply IH].
      intros Hin. destruct (set_prop_keys _ _ _ _ Hin); [congruence | contradiction].
Qed.

(** Reading after writing: the key written reads as the value written,
    the others as before. *)
Lemma own_prop_set_prop fields k v c :
  NoDup (List.map fst fields) ->
  own_prop (set_prop fields k v) c = if String.eqb k c then v else own_prop fields c.
Proof.
  induction fields as [|[k' v'] fields IH]; cbn [set_prop List.map fst]; intros H.
  - reflexivity.
  - inversion H as [|? ? Hnot Hrest]; subst.
    destruct (String.eqb_spec k' k) as [->|Hne]; cbn [own_prop].
    + destruct (String.eqb_spec k c) as [->|Hkc].
      * now rewrite (own_prop_absent _ _ Hnot).
      * reflexivity.
    + rewrite (IH Hrest).
      destruct (String.eqb_spec k c) as [->|Hkc]; [|reflexivity].
      rewrite (proj2 (String.eqb_neq k' c) Hne). now destruct v.
Qed.

Lemma collect_reads attrs :
  forall fields,
    NoDup (List.map fst fields) ->
    forallb readable attrs = true ->
    exists custom,
      collect fields attrs = Some custom
      /\ forall key, key <> "__proto__" ->
                     own_prop custom key = last_value key attrs (own_prop fields key).
Proof.
  induction attrs as [|attr attrs IH]; intros fields Hnd Hr.
  - exists fields. split; reflexivity.
  - cbn [forallb] in Hr. apply andb_true_iff in Hr. destruct Hr as [Ha Hr].
    cbn [collect last_value]. rewrite !(get_prop_prop _ _ Ha).
    unfold assign.
    destruct (String.eqb_spec (to_string (prop attr "attribute_code")) "__proto__")
      as [Hp|Hp].
    + destruct (IH fields Hnd Hr) as (custom & Hc & Hread).
      exists custom. split; [exact Hc|]. intros key Hkey.
      rewrite (Hread key Hkey), Hp.
      now rewrite (proj2 (String.eqb_neq "__proto__" key)) by congruence.
    + destruct (IH (set_prop fields (to_string (prop attr "attribute_code"))
                      (prop attr "value"))
                   (set_prop_nodup _ _ _ Hnd) Hr) as (custom & Hc & Hread).
      exists custom. split; [exact Hc|]. intros key Hkey.
      rewrite (Hread key Hkey), (own_prop_set_prop _ _ _ _ Hnd).
      now destruct (String.eqb (to_string (prop attr "attribute_code")) key).
Qed.

(** X22. The custom attributes of a product, a list of objects, are
    turned into one object from code to value in which, of several
    attributes with the same code, the last one counts: the own
    property of that object under a code other than [__proto__] is the
    value of the last attribute of the list with that code, and there
    is none when no attribute has the code. *)
Theorem formatProduct_custom_attributes :
  forall product attrs,
    get_prop product "custom_attributes" = Some (JArr attrs) ->
    forallb readable attrs = true ->
    exists formatted custom,
      formatProduct product = Some formatted
      /\ get_prop formatted "custom_attributes" = Some (JObj custom)
      /\ forall key,
           key <> "__proto__" ->
           own_prop custom key = last_value key attrs JUndefined.
Proof.
  intros product attrs Hattrs Hr.
  destruct product; try (cbn in Hattrs; discriminate Hattrs).
  unfold formatProduct. cbn [truthy negb]. cbv zeta.
  unfold prop at 1 2 3. rewrite Hattrs. cbn [truthy isArray andb elems].
  destruct (collect_reads attrs [] (NoDup_nil _) Hr) as (custom & -> & Hread).
  eexists. exists custom. split; [reflexivity|]. split; [reflexivity|].
  intros key Hkey. now rewrite (Hread key Hkey).
Qed.

Lemma formatProduct_custom_attributes_witness :
  exists formatted custom,
    formatProduct
      (JObj [("sku", JStr "A");
             ("custom_attributes",
              JArr [JObj [("attribute_code", JStr "color"); ("value", JStr "red")];
                    JObj [("attribute_code", JStr "size"); ("value", JNum 4)];
                    JObj [("attribute_code", JStr "color"); ("value", JStr "blue")]])])
    = Some formatted
    /\ get_prop formatted "custom_attributes" = Some (JObj custom)
    /\ forall key,
         key <> "__proto__" ->
         own_prop custom key =
         last_value key
           [JObj [("attribute_code", JStr "color"); ("value", JStr "red")];
            JObj [("attribute_code", JStr "size"); ("value", JNum 4)];
            JObj [("attribute_code", JStr "color"); ("value", JStr "blue")]]
           JUndefined.
Proof.
  exact (formatProduct_custom_attributes
           (JObj [("sku", JStr "A");
                  ("custom_attributes",
                   JArr [JObj [("attribute_code", JStr "color"); ("value", JStr "red")];
                         JObj [("attribute_code", JStr "size"); ("value", JNum 4)];
                         JObj [("attribute_code", JStr "color");
                               ("value", JStr "blue")]])])
           _ eq_refl eq_refl).
Defined.

End FormatterFacts.
